(** * gradus: temperature-scale conversion (gradus_fixed.c, gradus_enhanced.c)

    A shallow embedding of the conversion core of the two programs
    [src/gradus_fixed.c] and [src/gradus_enhanced.c]:

    - the scale registry ([Is_valid_scale], [Get_type]),
    - the sixteen per-scale transforms through Celsius,
    - [Convert_temperature] of each program, with [exit] modelled by an
      error monad,
    - the "-0.00" display rule applied before [printf("%.2f")].

    C [double] is modelled by Rocq's primitive binary64 floats, with every
    operation rounded to nearest-even as on an IEEE 754 target without
    extended precision or fused multiply-add.  C strings are modelled by
    [string]; [strcmp] by the three-way comparison of [String.compare]. *)

From Stdlib Require Import ZArith QArith Bool List String Ascii Floats Lia Lqa.
From Stdlib Require Uint63.
From Stdlib Require DecimalString.
From Stdlib Require DecimalN.
Import ListNotations.

Set Warnings "-inexact-float".

Local Open Scope string_scope.

(** * Data model *)

(** [typedef enum { CELSIUS, ..., UNKNOWN } Temperature;] *)
Inductive Temperature : Set :=
| CELSIUS
| FAHRENHEIT
| KELVIN
| RANKINE
| REAUMUR
| DELISLE
| NEWTON
| ROMER
| UNKNOWN.

Definition Temperature_eq_dec (a b : Temperature) : {a = b} + {a <> b}.
Proof. decide equality. Defined.

(** The C comparison [a == b] on enum values. *)
Definition Temperature_eqb (a b : Temperature) : bool :=
  if Temperature_eq_dec a b then true else false.

(** * C library: strcmp *)

(** [strcmp] returns a negative, zero or positive [int]; only its sign is
    specified.  Characters are compared as unsigned bytes. *)
Definition strcmp (s1 s2 : string) : Z :=
  match String.compare s1 s2 with
  | Eq => 0
  | Lt => -1
  | Gt => 1
  end%Z.

(** * Scale registry *)

(** The NULL-terminated array [valid_scales] of [Is_valid_scale]. *)
Definition valid_scales : list string :=
  ["C"; "c"; "F"; "f"; "K"; "k"; "R"; "r";
   "Re"; "re"; "RE"; "De"; "de"; "DE";
   "N"; "n"; "Ro"; "ro"; "RO"].

(** The scanning loop of [Is_valid_scale]: walk the array from index [i]
    until the terminating NULL, returning 1 at the first entry equal to
    [scale] and 0 when the end is reached. *)
Fixpoint Is_valid_scale_loop (scale : string) (rest : list string) : Z :=
  match rest with
  | [] => 0
  | entry :: rest' =>
      if (strcmp scale entry =? 0)%Z then 1
      else Is_valid_scale_loop scale rest'
  end%Z.

Definition Is_valid_scale (scale : string) : Z :=
  Is_valid_scale_loop scale valid_scales.

Definition Get_type (scale_name : string) : Temperature :=
  if ((strcmp scale_name "C" =? 0) || (strcmp scale_name "c" =? 0))%Z then CELSIUS
  else if ((strcmp scale_name "F" =? 0) || (strcmp scale_name "f" =? 0))%Z then FAHRENHEIT
  else if ((strcmp scale_name "K" =? 0) || (strcmp scale_name "k" =? 0))%Z then KELVIN
  else if ((strcmp scale_name "R" =? 0) || (strcmp scale_name "r" =? 0))%Z then RANKINE
  else if ((strcmp scale_name "Re" =? 0) || (strcmp scale_name "re" =? 0)
           || (strcmp scale_name "RE" =? 0))%Z then REAUMUR
  else if ((strcmp scale_name "De" =? 0) || (strcmp scale_name "de" =? 0)
           || (strcmp scale_name "DE" =? 0))%Z then DELISLE
  else if ((strcmp scale_name "N" =? 0) || (strcmp scale_name "n" =? 0))%Z then NEWTON
  else if ((strcmp scale_name "Ro" =? 0) || (strcmp scale_name "ro" =? 0)
           || (strcmp scale_name "RO" =? 0))%Z then ROMER
  else UNKNOWN.

(** * Conversion engine: constants and per-scale transforms

    The macros and the sixteen [static double] helpers are textually the
    same in both programs.  A macro body is substituted as written:
    [FAHRENHEIT_RATIO] is the double quotient [9.0 / 5.0], and
    [ABSOLUTE_ZERO_CELSIUS] is the unparenthesised token pair [- 273.15],
    so that [c - ABSOLUTE_ZERO_CELSIUS] reads [c - (-273.15)]. *)

Definition WATER_FREEZING : float := 0.0%float.
Definition WATER_BOILING : float := 100.0%float.
Definition FAHRENHEIT_RATIO : float := (9.0 / 5.0)%float.
Definition CELSIUS_RATIO : float := (5.0 / 9.0)%float.
Definition ABSOLUTE_ZERO_CELSIUS : float := (- 273.15)%float.
Definition ABSOLUTE_ZERO_FAHRENHEIT : float := (- 459.67)%float.
Definition ABSOLUTE_ZERO_RANKINE : float := 0.0%float.
Definition ABSOLUTE_ZERO_KELVIN : float := 0.0%float.
Definition REAUMUR_RATIO : float := (4.0 / 5.0)%float.
Definition DELISLE_RATIO : float := (3.0 / 2.0)%float.
Definition NEWTON_RATIO : float := (33.0 / 100.0)%float.
Definition ROMER_RATIO : float := (21.0 / 40.0)%float.
Definition ROMER_OFFSET : float := 7.5%float.
Definition DELISLE_BASE : float := 100.0%float.

Definition Celsius_to_Fahrenheit (c : float) : float :=
  (c * FAHRENHEIT_RATIO + 32.0)%float.

Definition Fahrenheit_to_Celsius (f : float) : float :=
  ((f - 32.0) * CELSIUS_RATIO)%float.

Definition Celsius_to_Kelvin (c : float) : float :=
  (c - ABSOLUTE_ZERO_CELSIUS)%float.

Definition Kelvin_to_Celsius (k : float) : float :=
  (k + ABSOLUTE_ZERO_CELSIUS)%float.

Definition Celsius_to_Rankine (c : float) : float :=
  ((c - ABSOLUTE_ZERO_CELSIUS) * FAHRENHEIT_RATIO)%float.

Definition Rankine_to_Celsius (r : float) : float :=
  ((r - ABSOLUTE_ZERO_FAHRENHEIT + 32.0) * CELSIUS_RATIO)%float.

Definition Celsius_to_Reaumur (c : float) : float :=
  (c * REAUMUR_RATIO)%float.

Definition Reaumur_to_Celsius (re : float) : float :=
  (re / REAUMUR_RATIO)%float.

Definition Celsius_to_Delisle (c : float) : float :=
  ((DELISLE_BASE - c) * DELISLE_RATIO)%float.

Definition Delisle_to_Celsius (de : float) : float :=
  (DELISLE_BASE - de / DELISLE_RATIO)%float.

Definition Celsius_to_Newton (c : float) : float :=
  (c * NEWTON_RATIO)%float.

Definition Newton_to_Celsius (n : float) : float :=
  (n / NEWTON_RATIO)%float.

Definition Celsius_to_Romer (c : float) : float :=
  (c * ROMER_RATIO + ROMER_OFFSET)%float.

Definition Romer_to_Celsius (ro : float) : float :=
  ((ro - ROMER_OFFSET) / ROMER_RATIO)%float.

(** * Process exit as an error monad

    [Convert_temperature] leaves through [Usage()] or [exit(EXIT_FAILURE)]
    after writing a message to [stderr].  The message decides the error:
    "Unknown source scale: %s" and "Unknown target scale: %s" are
    [UnknownScale] on the named side with the identifier printed, and
    "Error: Temperature in %s scale cannot be negative (got %.2f)" is
    [NegativeAbsoluteTemperature] with the source identifier and value. *)

Inductive Side : Set :=
| SourceSide
| TargetSide.

Inductive ConversionError : Set :=
| UnknownScale (side : Side) (identifier : string)
| NegativeAbsoluteTemperature (scale : string) (value : float).

Inductive result (A : Type) : Type :=
| Ok (a : A)
| Exit (e : ConversionError).

Arguments Ok {A} a.
Arguments Exit {A} e.

Definition bind {A B : Type} (m : result A) (k : A -> result B) : result B :=
  match m with
  | Ok a => k a
  | Exit e => Exit e
  end.

(** [if (c) { fprintf(stderr, ...); exit(...); }] *)
Definition exit_when (c : bool) (e : ConversionError) : result unit :=
  if c then Exit e else Ok tt.

Notation "m1 ;; m2" := (bind m1 (fun _ => m2))
  (at level 61, right associativity).

(** * Display layer

    Both [main] functions, and [Process_array] of gradus_enhanced.c, print
    a result [r] with
    [if (fabs(r) < 0.005 && r != 0.0) r = 0.0;  printf("%.2f", r);]. *)

(** ** C library: printf("%.2f")

    The conversion [%.2f] writes a minus sign when the sign bit is set,
    then the value rounded to two fractional digits; the exact binary
    value is rounded to the nearest hundredth, ties to even, as the
    C library does in the default rounding mode.  Infinities and NaN print
    as [inf], [-inf] and [nan]. *)

(** Nearest integer to [n / d] for [0 <= n] and [0 < d], ties to even. *)
Definition round_half_even (n d : Z) : Z :=
  let q := (n / d)%Z in
  match (2 * (n mod d) ?= d)%Z with
  | Lt => q
  | Gt => (q + 1)%Z
  | Eq => if Z.even q then q else (q + 1)%Z
  end.

(** The number of hundredths nearest to [m * 2 ^ e]. *)
Definition hundredths (m : positive) (e : Z) : Z :=
  if (0 <=? e)%Z then (Z.pos m * 2 ^ e * 100)%Z
  else round_half_even (Z.pos m * 100) (2 ^ (- e)).

Definition decimal (n : Z) : string :=
  DecimalString.NilZero.string_of_uint (N.to_uint (Z.to_N n)).

Definition two_digits (n : Z) : string :=
  if (n <? 10)%Z then "0" ++ decimal n else decimal n.

Definition sign_text (s : bool) : string :=
  if s then "-" else "".

Definition printf_2f (r : float) : string :=
  match Prim2SF r with
  | S754_nan => "nan"
  | S754_infinity s => sign_text s ++ "inf"
  | S754_zero s => sign_text s ++ "0.00"
  | S754_finite s m e =>
      let h := hundredths m e in
      sign_text s ++ decimal (h / 100) ++ "." ++ two_digits (h mod 100)
  end.

(** ** The "-0.00" rule *)

(** [if (fabs(r) < 0.005 && r != 0.0) r = 0.0;] *)
Definition Avoid_negative_zero (r : float) : float :=
  if ((abs r <? 0.005)%float && negb (r =? 0.0)%float)%bool
  then 0.0%float
  else r.

(** The text written for one result, without the separator or newline
    that follows it. *)
Definition Print_result (r : float) : string :=
  printf_2f (Avoid_negative_zero r).

(** * The two programs *)

(** ** gradus_fixed.c *)

Module Fixed.

Definition Convert_temperature (value : float) (source target : string)
  : result float :=
  let source_type := Get_type source in
  let target_type := Get_type target in
  exit_when (Temperature_eqb source_type UNKNOWN)
            (UnknownScale SourceSide source) ;;
  exit_when ((Temperature_eqb source_type KELVIN
              || Temperature_eqb source_type RANKINE)
             && (value <? 0)%float)
            (NegativeAbsoluteTemperature source value) ;;
  let celsius :=
    match source_type with
    | CELSIUS => value
    | FAHRENHEIT => Fahrenheit_to_Celsius value
    | KELVIN => Kelvin_to_Celsius value
    | RANKINE => Rankine_to_Celsius value
    | REAUMUR => Reaumur_to_Celsius value
    | DELISLE => Delisle_to_Celsius value
    | NEWTON => Newton_to_Celsius value
    | ROMER => Romer_to_Celsius value
    | UNKNOWN => 0%float
    end in
  match target_type with
  | CELSIUS => Ok celsius
  | FAHRENHEIT => Ok (Celsius_to_Fahrenheit celsius)
  | KELVIN => Ok (Celsius_to_Kelvin celsius)
  | RANKINE => Ok (Celsius_to_Rankine celsius)
  | REAUMUR => Ok (Celsius_to_Reaumur celsius)
  | DELISLE => Ok (Celsius_to_Delisle celsius)
  | NEWTON => Ok (Celsius_to_Newton celsius)
  | ROMER => Ok (Celsius_to_Romer celsius)
  | UNKNOWN => Exit (UnknownScale TargetSide target)
  end.

(** [main] around one value: both command line identifiers are validated
    with [Is_valid_scale] ("Invalid source scale: %s", "Invalid target
    scale: %s", then [Usage()]) before any value is read; a value [v] that
    [Parse] has accepted is then converted and printed.  [source_scale]
    and [target_scale] are the non-NULL arguments of [-s] and [-t]. *)
Definition main_convert (source_scale target_scale : string) (v : float)
  : result string :=
  exit_when (Is_valid_scale source_scale =? 0)%Z
            (UnknownScale SourceSide source_scale) ;;
  exit_when (Is_valid_scale target_scale =? 0)%Z
            (UnknownScale TargetSide target_scale) ;;
  bind (Convert_temperature v source_scale target_scale)
       (fun r => Ok (Print_result r)).

End Fixed.

(** ** gradus_enhanced.c *)

Module Enhanced.

Definition Convert_temperature (value : float) (source target : string)
  : result float :=
  let source_type := Get_type source in
  let target_type := Get_type target in
  exit_when (Temperature_eqb source_type UNKNOWN)
            (UnknownScale SourceSide source) ;;
  exit_when (Temperature_eqb target_type UNKNOWN)
            (UnknownScale TargetSide target) ;;
  exit_when ((Temperature_eqb source_type KELVIN
              || Temperature_eqb source_type RANKINE)
             && (value <? 0)%float)
            (NegativeAbsoluteTemperature source value) ;;
  let celsius :=
    match source_type with
    | CELSIUS => value
    | FAHRENHEIT => Fahrenheit_to_Celsius value
    | KELVIN => Kelvin_to_Celsius value
    | RANKINE => Rankine_to_Celsius value
    | REAUMUR => Reaumur_to_Celsius value
    | DELISLE => Delisle_to_Celsius value
    | NEWTON => Newton_to_Celsius value
    | ROMER => Romer_to_Celsius value
    | UNKNOWN => 0%float
    end in
  match target_type with
  | CELSIUS => Ok celsius
  | FAHRENHEIT => Ok (Celsius_to_Fahrenheit celsius)
  | KELVIN => Ok (Celsius_to_Kelvin celsius)
  | RANKINE => Ok (Celsius_to_Rankine celsius)
  | REAUMUR => Ok (Celsius_to_Reaumur celsius)
  | DELISLE => Ok (Celsius_to_Delisle celsius)
  | NEWTON => Ok (Celsius_to_Newton celsius)
  | ROMER => Ok (Celsius_to_Romer celsius)
  | UNKNOWN => Exit (UnknownScale TargetSide target)
  end.

(** [main] around one value: both command line identifiers are validated
    with [Is_valid_scale] ("Invalid source scale: %s", "Invalid target
    scale: %s", then [Usage()]) before any value is read; a value [v] that
    [Parse] has accepted is then converted and printed.  [source_scale]
    and [target_scale] are the non-NULL arguments of [-s] and [-t]. *)
Definition main_convert (source_scale target_scale : string) (v : float)
  : result string :=
  exit_when (Is_valid_scale source_scale =? 0)%Z
            (UnknownScale SourceSide source_scale) ;;
  exit_when (Is_valid_scale target_scale =? 0)%Z
            (UnknownScale TargetSide target_scale) ;;
  bind (Convert_temperature v source_scale target_scale)
       (fun r => Ok (Print_result r)).

End Enhanced.

(** * Input processing

    What surrounds [Convert_temperature]: [Parse], the tokenising loop of
    [Process_array], and [main] from the check of the two scale arguments
    onwards.  Standard output is accumulated as a string; leaving the
    process with [exit] keeps what has been written so far (the stream is
    flushed at exit).  Messages on [stderr] are represented by the error
    the process stops with. *)

Inductive ProcessError : Set :=
| MissingScales
| NumberOutOfRange (token : string)
| InvalidNumber (token : string)
| SpecialNumber (token : string)
| Conversion (e : ConversionError).

Inductive step (A : Type) : Type :=
| Done (a : A)
| Stop (e : ProcessError).

Arguments Done {A} a.
Arguments Stop {A} e.

(** A computation that appends to standard output and may stop the
    process. *)
Definition process (A : Type) : Type := string -> string * step A.

Definition done {A : Type} (a : A) : process A :=
  fun out => (out, Done a).

Definition stop {A : Type} (e : ProcessError) : process A :=
  fun out => (out, Stop e).

(** [printf("%s", text)] *)
Definition write (text : string) : process unit :=
  fun out => (out ++ text, Done tt).

Definition and_then {A B : Type} (m : process A) (k : A -> process B)
  : process B :=
  fun out =>
    match m out with
    | (out', Done a) => k a out'
    | (out', Stop e) => (out', Stop e)
    end.

Definition stop_when (c : bool) (e : ProcessError) : process unit :=
  if c then stop e else done tt.

(** A call of [Convert_temperature] inside a process. *)
Definition converted (r : result float) : process float :=
  match r with
  | Ok x => done x
  | Exit e => stop (Conversion e)
  end.

Declare Scope process_scope.
Delimit Scope process_scope with process.
Bind Scope process_scope with process.

Notation "'let!' x ':=' m1 'in' m2" := (and_then m1 (fun x => m2))
  (at level 10, x name, m1 at level 100, m2 at level 200) : process_scope.
Notation "m1 ;;; m2" := (and_then m1 (fun _ => m2))
  (at level 62, right associativity) : process_scope.

(** The process started on an empty standard output. *)
Definition run {A : Type} (m : process A) : string * step A := m "".

(** ** C library: strtok

    [strtok(str, delims)] skips the leading characters that belong to
    [delims]; at the end of the string it returns NULL; otherwise the token
    runs up to the next character of [delims], which is overwritten by
    NUL, or to the end of the string, and the scan of the next call
    [strtok(NULL, delims)] resumes behind it.  The saved position is the
    string that is left. *)

Definition is_delim (delims : string) (c : ascii) : bool :=
  existsb (Ascii.eqb c) (list_ascii_of_string delims).

Fixpoint skip_delims (delims s : string) : string :=
  match s with
  | EmptyString => EmptyString
  | String c s' => if is_delim delims c then skip_delims delims s' else s
  end.

(** The token at the head of [s] and the position saved for the next
    call. *)
Fixpoint scan_token (delims s : string) : string * string :=
  match s with
  | EmptyString => (EmptyString, EmptyString)
  | String c s' =>
      if is_delim delims c then (EmptyString, s')
      else let (token, saved) := scan_token delims s' in (String c token, saved)
  end.

Definition strtok (delims saved : string) : option (string * string) :=
  match skip_delims delims saved with
  | EmptyString => None
  | s => Some (scan_token delims s)
  end.

(** The tokens returned by [strtok(input, delims)] and the calls
    [strtok(NULL, delims)] that follow it, up to the first NULL.  Every
    call consumes at least one character, so [S (length input)] calls
    reach the NULL. *)
Fixpoint strtok_calls (fuel : nat) (delims saved : string) : list string :=
  match fuel with
  | O => []
  | S fuel' =>
      match strtok delims saved with
      | None => []
      | Some (token, saved') => token :: strtok_calls fuel' delims saved'
      end
  end.

Definition strtok_tokens (delims input : string) : list string :=
  strtok_calls (S (String.length input)) delims input.

(** ** C library: getline *)

Definition newline : ascii := "010"%char.
Definition tab : ascii := "009"%char.

(** The lines that successive calls of [getline] read from a stream, up to
    the call that returns -1.  A line keeps its newline; the last line has
    none when the stream does not end in one. *)
Fixpoint getlines (line stream : string) : list string :=
  match stream with
  | EmptyString =>
      match line with
      | EmptyString => []
      | _ => [line]
      end
  | String c stream' =>
      if Ascii.eqb c newline
      then (line ++ String c EmptyString) :: getlines EmptyString stream'
      else getlines (line ++ String c EmptyString) stream'
  end.

(** [line[l - 1]], the last character of a non-empty string. *)
Fixpoint last_char (s : string) : option ascii :=
  match s with
  | EmptyString => None
  | String c EmptyString => Some c
  | String _ s' => last_char s'
  end.

(** [line[l - 1] = '\0'] *)
Fixpoint drop_last (s : string) : string :=
  match s with
  | EmptyString => EmptyString
  | String c EmptyString => EmptyString
  | String c s' => String c (drop_last s')
  end.

(** [if (l && line[l - 1] == '\n') line[l - 1] = '\0';] *)
Definition strip_newline (line : string) : string :=
  match last_char line with
  | Some c => if Ascii.eqb c newline then drop_last line else line
  | None => line
  end.

(** ** Parse, Process_array and main

    [strtod] and [ERANGE] belong to the C library: [strtod s] gives the
    value returned, the number of characters in front of the end pointer,
    and [errno] after the call (0 when the call left it alone). *)

Section Programs.

Variable strtod : string -> float * nat * Z.
Variable ERANGE : Z.

Definition Parse (s : string) : process float :=
  let '(v, e, errno) := strtod s in
  if (errno =? ERANGE)%Z then stop (NumberOutOfRange s)
  else if (negb (errno =? 0)%Z || (e =? 0)%nat
           || (e <? String.length s)%nat)%bool
  then stop (InvalidNumber s)
  else if (is_infinity v || is_nan v)%bool then stop (SpecialNumber s)
  else done v.

(** *** gradus_fixed.c *)

(** One round of either loop of [main]. *)
Definition Fixed_main_value (source_scale target_scale text : string)
  : process unit :=
  (let! v := Parse text in
   let! r := converted (Fixed.Convert_temperature v source_scale target_scale) in
   write (Print_result r ++ String newline EmptyString))%process.

Fixpoint Fixed_main_args (source_scale target_scale : string)
  (args : list string) : process unit :=
  match args with
  | [] => done tt
  | arg :: args' =>
      (Fixed_main_value source_scale target_scale arg ;;;
       Fixed_main_args source_scale target_scale args')%process
  end.

Fixpoint Fixed_main_lines (source_scale target_scale : string)
  (lines : list string) : process unit :=
  match lines with
  | [] => done tt
  | line :: lines' =>
      ((if (1 <? String.length line)%nat
        then Fixed_main_value source_scale target_scale (strip_newline line)
        else done tt) ;;;
       Fixed_main_lines source_scale target_scale lines')%process
  end.

(** [main] after the option loop, when [-T] was not given: [source_scale]
    and [target_scale] are the arguments of [-s] and [-t] or NULL, [args]
    is [argv] from [optind] on, [stdin] the standard input. *)
Definition Fixed_main (source_scale target_scale : option string)
  (args : list string) (stdin : string) : process unit :=
  match source_scale, target_scale with
  | Some source, Some target =>
      (stop_when (Is_valid_scale source =? 0)%Z
                 (Conversion (UnknownScale SourceSide source)) ;;;
       stop_when (Is_valid_scale target =? 0)%Z
                 (Conversion (UnknownScale TargetSide target)) ;;;
       match args with
       | _ :: _ => Fixed_main_args source target args
       | [] => Fixed_main_lines source target (getlines EmptyString stdin)
       end)%process
  | _, _ => stop MissingScales
  end.

(** *** gradus_enhanced.c *)

(** The global settings that the option loop fills in. *)
Variable input_separator : option string.
Variable output_separator : option string.
Variable array_mode : bool.

(** [if (!first && output_separator != NULL) printf("%s", output_separator);] *)
Definition write_separator (first : bool) : process unit :=
  match output_separator with
  | Some separator => if negb first then write separator else done tt
  | None => done tt
  end.

(** The body of the [while (token != NULL)] loop of [Process_array], over
    the tokens that the calls of [strtok] return. *)
Fixpoint Process_array_loop (source_scale target_scale : string)
  (tokens : list string) (first : bool) : process unit :=
  match tokens with
  | [] => done tt
  | token :: tokens' =>
      if (0 <? String.length token)%nat
      then
        (let! value := Parse token in
         let! result := converted (Enhanced.Convert_temperature
                                   value source_scale target_scale) in
         write_separator first ;;;
         write (Print_result result) ;;;
         Process_array_loop source_scale target_scale tokens' false)%process
      else Process_array_loop source_scale target_scale tokens' first
  end.

Definition Process_array (input source_scale target_scale : string)
  : process unit :=
  let delims :=
    match input_separator with
    | Some separator => separator
    | None => String " " (String tab (String newline EmptyString))
    end in
  (Process_array_loop source_scale target_scale
     (strtok_tokens delims input) true ;;;
   match output_separator with
   | None => write (String newline EmptyString)
   | Some _ => done tt
   end)%process.

(** The [for] loop over the command line values; the result is the value
    of [first] after the loop. *)
Fixpoint Enhanced_main_args (source_scale target_scale : string)
  (args : list string) (first : bool) : process bool :=
  match args with
  | [] => done first
  | arg :: args' =>
      if array_mode
      then
        (Process_array arg source_scale target_scale ;;;
         Enhanced_main_args source_scale target_scale args' first)%process
      else
        (let! v := Parse arg in
         let! r := converted (Enhanced.Convert_temperature
                              v source_scale target_scale) in
         write_separator first ;;;
         write (Print_result r) ;;;
         Enhanced_main_args source_scale target_scale args' false)%process
  end.

Fixpoint Enhanced_main_lines (source_scale target_scale : string)
  (lines : list string) : process unit :=
  match lines with
  | [] => done tt
  | line :: lines' =>
      ((if (1 <? String.length line)%nat
        then
          if array_mode
          then Process_array (strip_newline line) source_scale target_scale
          else
            let! v := Parse (strip_newline line) in
            let! r := converted (Enhanced.Convert_temperature
                                 v source_scale target_scale) in
            write (Print_result r ++ String newline EmptyString)
        else done tt) ;;;
       Enhanced_main_lines source_scale target_scale lines')%process
  end.

(** [main] after the option loop, when neither [-T] nor [-G] was given. *)
Definition Enhanced_main (source_scale target_scale : option string)
  (args : list string) (stdin : string) : process unit :=
  match source_scale, target_scale with
  | Some source, Some target =>
      (stop_when (Is_valid_scale source =? 0)%Z
                 (Conversion (UnknownScale SourceSide source)) ;;;
       stop_when (Is_valid_scale target =? 0)%Z
                 (Conversion (UnknownScale TargetSide target)) ;;;
       match args with
       | _ :: _ =>
           let! first := Enhanced_main_args source target args true in
           if (negb array_mode && negb first)%bool
           then write (String newline EmptyString)
           else done tt
       | [] => Enhanced_main_lines source target (getlines EmptyString stdin)
       end)%process
  | _, _ => stop MissingScales
  end.

End Programs.

(** A stand-in for [strtod] on the tokens used in examples: an optional
    minus sign followed by one to fifteen decimal digits, read as the
    integer they spell; any other string converts nothing.  On the strings
    it accepts it returns what [strtod] returns. *)
Fixpoint digits_value (s : string) (acc : Z) : option Z :=
  match s with
  | EmptyString => Some acc
  | String c s' =>
      let d := (Z.of_N (N_of_ascii c) - 48)%Z in
      if ((0 <=? d) && (d <=? 9))%Z then digits_value s' (10 * acc + d)%Z
      else None
  end.

Definition float_of_small_Z (z : Z) : float :=
  if (z <? 0)%Z then (- of_uint63 (Uint63.of_Z (- z)))%float
  else of_uint63 (Uint63.of_Z z).

Definition strtod_integers (s : string) : float * nat * Z :=
  let nothing := (0%float, O, 0%Z) in
  let '(negative, body) :=
    match s with
    | String "-" s' => (true, s')
    | _ => (false, s)
    end in
  if ((0 <? String.length body) && (String.length body <=? 15))%nat
  then
    match digits_value body 0 with
    | Some z =>
        (if negative then (- float_of_small_Z z)%float else float_of_small_Z z,
         String.length s, 0%Z)
    | None => nothing
    end
  else nothing.

(** * The tables

    [Print_temperature_table] and [Print_temperature_graph] take no input;
    a row is represented by the arguments that its [printf] receives, in
    order, and the frame around the rows is left out. *)

(** [(int)c] for a double inside the range of [int]: the fraction is
    dropped. *)
Definition double_to_int (c : float) : Z :=
  match Prim2SF c with
  | S754_finite s m e =>
      let magnitude :=
        if (0 <=? e)%Z then (Z.pos m * 2 ^ e)%Z else (Z.pos m / 2 ^ (- e))%Z in
      if s then (- magnitude)%Z else magnitude
  | _ => 0%Z
  end.

(** gradus_fixed.c:
    [for (double c = -20.0; c <= 100.0; c += 10.0)] with the row
    [(int)c, f, k, r]; [fuel] bounds the number of rounds. *)
Fixpoint Fixed_table_loop (fuel : nat) (c : float)
  : list (Z * float * float * float) :=
  match fuel with
  | O => []
  | S fuel' =>
      if (c <=? 100.0)%float
      then
        let f := Celsius_to_Fahrenheit c in
        let k := Celsius_to_Kelvin c in
        let r := Celsius_to_Rankine c in
        (double_to_int c, f, k, r) :: Fixed_table_loop fuel' (c + 10.0)%float
      else []
  end.

Definition Fixed_table_rows (fuel : nat) : list (Z * float * float * float) :=
  Fixed_table_loop fuel (-20.0)%float.

(** gradus_enhanced.c:
    [for (i = -4, c = -40.0; i <= 10; i++, c += 10.0)] with the row
    [c, f, k, r, re]. *)
Fixpoint Enhanced_table_loop (fuel : nat) (i : Z) (c : float)
  : list (float * float * float * float * float) :=
  match fuel with
  | O => []
  | S fuel' =>
      if (i <=? 10)%Z
      then
        let f := Celsius_to_Fahrenheit c in
        let k := Celsius_to_Kelvin c in
        let r := Celsius_to_Rankine c in
        let re := Celsius_to_Reaumur c in
        (c, f, k, r, re) :: Enhanced_table_loop fuel' (i + 1)%Z (c + 10.0)%float
      else []
  end.

Definition Enhanced_table_rows (fuel : nat)
  : list (float * float * float * float * float) :=
  Enhanced_table_loop fuel (-4)%Z (-40.0)%float.

(** gradus_enhanced.c: the array [points] of [Print_temperature_graph]
    and the rows [c, f, k, r] of its loop (the first column prints [c] a
    second time; [c_pos] is computed and not used). *)
Definition points : list float :=
  [(-20.0)%float; (-10.0)%float; 0.0%float; 10.0%float; 20.0%float;
   30.0%float; 40.0%float; 50.0%float; 60.0%float; 70.0%float; 80.0%float;
   90.0%float; 100.0%float].

Definition graph_rows : list (float * float * float * float) :=
  map (fun c =>
         let f := Celsius_to_Fahrenheit c in
         let k := Celsius_to_Kelvin c in
         let r := Celsius_to_Rankine c in
         (c, f, k, r))
      points.

(** ** Vocabulary for the statements about input processing *)

(** A token as [strtok] returns them: not empty, and free of delimiters. *)
Definition well_formed_token (delims token : string) : bool :=
  ((0 <? String.length token)%nat
   && forallb (fun c => negb (is_delim delims c)) (list_ascii_of_string token))%bool.

Definition only_delims (delims text : string) : bool :=
  forallb (is_delim delims) (list_ascii_of_string text).

(** What is written between two results. *)
Definition separator_text (output_separator : option string) : string :=
  match output_separator with
  | Some separator => separator
  | None => EmptyString
  end.

(** [text] is accepted by [Parse] and its value is converted to [r]. *)
Definition text_converts
  (convert : float -> string -> string -> result float)
  (strtod : string -> float * nat * Z) (ERANGE : Z)
  (source target text : string) (r : float) : Prop :=
  exists v, Parse strtod ERANGE text = done v /\ convert v source target = Ok r.

(** [text] stops the process with [e], in [Parse] or in the conversion. *)
Definition text_fails
  (convert : float -> string -> string -> result float)
  (strtod : string -> float * nat * Z) (ERANGE : Z)
  (source target text : string) (e : ProcessError) : Prop :=
  Parse strtod ERANGE text = stop e \/
  exists v e', Parse strtod ERANGE text = done v /\
               convert v source target = Exit e' /\ e = Conversion e'.

(** The delimiters that [Process_array] passes to [strtok]. *)
Definition array_delims (input_separator : option string) : string :=
  match input_separator with
  | Some separator => separator
  | None => String " " (String tab (String newline EmptyString))
  end.

(** What [Process_array] writes after the last result. *)
Definition array_end (output_separator : option string) : string :=
  match output_separator with
  | None => String newline EmptyString
  | Some _ => EmptyString
  end.

(** Results written by a loop that starts with the given value of
    [first]. *)
Definition joined_results (output_separator : option string) (first : bool)
  (rs : list float) : string :=
  match rs with
  | [] => EmptyString
  | _ =>
      (if first then EmptyString else separator_text output_separator)
      ++ String.concat (separator_text output_separator) (map Print_result rs)
  end.

(** One line for every result, as gradus_fixed.c writes them. *)
Definition result_lines (rs : list float) : string :=
  String.concat EmptyString
    (map (fun r => Print_result r ++ String newline EmptyString) rs).

(** A stream whose last line, if it has one, is ended by a newline. *)
Definition complete_lines (stream : string) : bool :=
  match last_char stream with
  | None => true
  | Some c => Ascii.eqb c newline
  end.

(** A finite double that is not zero, and an infinity, as [Prim2SF] shows
    them. *)
Definition SFfinite (x : spec_float) : bool :=
  match x with
  | S754_finite _ _ _ => true
  | _ => false
  end.

Definition SFinfinite (x : spec_float) : bool :=
  match x with
  | S754_infinity _ => true
  | _ => false
  end.

(** * Properties under test *)

(** [convert(convert(x, S, Celsius), Celsius, S)] for a conversion function
    [convert]; "C" is one of the two identifiers of Celsius. *)
Definition round_trip (convert : float -> string -> string -> result float)
  (x : float) (S : string) : result float :=
  bind (convert x S "C") (fun c => convert c "C" S).

(** [|a - b| <= tol] on doubles. *)
Definition within (tol a b : float) : bool :=
  (abs (a - b) <=? tol)%float.

(** A finite double: neither NaN nor an infinity, as [Parse] demands. *)
Definition finite (x : float) : bool :=
  negb (is_nan x) && negb (is_infinity x).

(** What an error returned by [Convert_temperature] says about the call. *)
Definition error_justified (check_target_first : bool)
  (value : float) (source target : string) (e : ConversionError) : Prop :=
  match e with
  | UnknownScale SourceSide identifier =>
      identifier = source /\ Get_type source = UNKNOWN
  | UnknownScale TargetSide identifier =>
      identifier = target /\ Get_type target = UNKNOWN /\
      Get_type source <> UNKNOWN /\
      (check_target_first = false ->
       (Get_type source = KELVIN \/ Get_type source = RANKINE) ->
       (value <? 0)%float = false)
  | NegativeAbsoluteTemperature scale v =>
      scale = source /\ v = value /\
      (Get_type source = KELVIN \/ Get_type source = RANKINE) /\
      (value <? 0)%float = true /\
      (check_target_first = true -> Get_type target <> UNKNOWN)
  end.

(** * The transforms in exact arithmetic

    The same sixteen formulas read over the rationals, where no operation
    rounds.  They tell apart what a formula does from what double
    rounding adds to it. *)

Module Ideal.

Local Open Scope Q_scope.

Definition FAHRENHEIT_RATIO : Q := 9 / 5.
Definition CELSIUS_RATIO : Q := 5 / 9.
Definition ABSOLUTE_ZERO_CELSIUS : Q := - 273.15.
Definition ABSOLUTE_ZERO_FAHRENHEIT : Q := - 459.67.
Definition REAUMUR_RATIO : Q := 4 / 5.
Definition DELISLE_RATIO : Q := 3 / 2.
Definition NEWTON_RATIO : Q := 33 / 100.
Definition ROMER_RATIO : Q := 21 / 40.
Definition ROMER_OFFSET : Q := 7.5.
Definition DELISLE_BASE : Q := 100.

Definition Celsius_to_Fahrenheit (c : Q) : Q := c * FAHRENHEIT_RATIO + 32.
Definition Fahrenheit_to_Celsius (f : Q) : Q := (f - 32) * CELSIUS_RATIO.
Definition Celsius_to_Kelvin (c : Q) : Q := c - ABSOLUTE_ZERO_CELSIUS.
Definition Kelvin_to_Celsius (k : Q) : Q := k + ABSOLUTE_ZERO_CELSIUS.
Definition Celsius_to_Rankine (c : Q) : Q :=
  (c - ABSOLUTE_ZERO_CELSIUS) * FAHRENHEIT_RATIO.
Definition Rankine_to_Celsius (r : Q) : Q :=
  (r - ABSOLUTE_ZERO_FAHRENHEIT + 32) * CELSIUS_RATIO.
Definition Celsius_to_Reaumur (c : Q) : Q := c * REAUMUR_RATIO.
Definition Reaumur_to_Celsius (re : Q) : Q := re / REAUMUR_RATIO.
Definition Celsius_to_Delisle (c : Q) : Q := (DELISLE_BASE - c) * DELISLE_RATIO.
Definition Delisle_to_Celsius (de : Q) : Q := DELISLE_BASE - de / DELISLE_RATIO.
Definition Celsius_to_Newton (c : Q) : Q := c * NEWTON_RATIO.
Definition Newton_to_Celsius (n : Q) : Q := n / NEWTON_RATIO.
Definition Celsius_to_Romer (c : Q) : Q := c * ROMER_RATIO + ROMER_OFFSET.
Definition Romer_to_Celsius (ro : Q) : Q := (ro - ROMER_OFFSET) / ROMER_RATIO.

(** The source [switch] of [Convert_temperature]. *)
Definition to_celsius (source_type : Temperature) (value : Q) : Q :=
  match source_type with
  | CELSIUS => value
  | FAHRENHEIT => Fahrenheit_to_Celsius value
  | KELVIN => Kelvin_to_Celsius value
  | RANKINE => Rankine_to_Celsius value
  | REAUMUR => Reaumur_to_Celsius value
  | DELISLE => Delisle_to_Celsius value
  | NEWTON => Newton_to_Celsius value
  | ROMER => Romer_to_Celsius value
  | UNKNOWN => 0
  end.

(** The target [switch] of [Convert_temperature], on a known target. *)
Definition from_celsius (target_type : Temperature) (celsius : Q) : Q :=
  match target_type with
  | CELSIUS => celsius
  | FAHRENHEIT => Celsius_to_Fahrenheit celsius
  | KELVIN => Celsius_to_Kelvin celsius
  | RANKINE => Celsius_to_Rankine celsius
  | REAUMUR => Celsius_to_Reaumur celsius
  | DELISLE => Celsius_to_Delisle celsius
  | NEWTON => Celsius_to_Newton celsius
  | ROMER => Celsius_to_Romer celsius
  | UNKNOWN => 0
  end.

End Ideal.

(** [Convert_temperature] once both identifiers are resolved, read over
    the rationals: the two tests for [UNKNOWN], the guard [value < 0] on
    Kelvin and Rankine, then the two switches.  [None] stands for every
    way of leaving the process. *)
Module IdealEngine.

Definition Convert_temperature (value : Q) (source_type target_type : Temperature)
  : option Q :=
  if Temperature_eqb source_type UNKNOWN then None
  else if Temperature_eqb target_type UNKNOWN then None
  else if ((Temperature_eqb source_type KELVIN
            || Temperature_eqb source_type RANKINE)
           && negb (Qle_bool 0 value))%bool
  then None
  else Some (Ideal.from_celsius target_type (Ideal.to_celsius source_type value)).

End IdealEngine.

(** * Scale registry: properties *)

Lemma compare_same (s : string) : String.compare s s = Eq.
Proof.
  induction s as [|a s IH]; simpl; [reflexivity|].
  unfold Ascii.compare. now rewrite N.compare_refl.
Qed.

Lemma strcmp_zero_iff (s1 s2 : string) : (strcmp s1 s2 =? 0)%Z = true <-> s1 = s2.
Proof.
  unfold strcmp. split.
  - destruct (String.compare s1 s2) eqn:E; try discriminate.
    intros _. now apply String.compare_eq_iff.
  - intros ->. now rewrite compare_same.
Qed.

Lemma strcmp_nonzero_iff (s1 s2 : string) : (strcmp s1 s2 =? 0)%Z = false <-> s1 <> s2.
Proof.
  rewrite <- strcmp_zero_iff. destruct (strcmp s1 s2 =? 0)%Z; split; congruence.
Qed.

(** Case split on the first [strcmp] test left in the goal, following the
    order in which the C code performs the comparisons. *)
Ltac next_strcmp :=
  match goal with
  | |- context [(strcmp ?s ?lit =? 0)%Z] =>
      let E := fresh "E" in
      destruct (strcmp s lit =? 0)%Z eqn:E;
      [ apply strcmp_zero_iff in E | apply strcmp_nonzero_iff in E ]
  end.

Lemma Is_valid_scale_In (s : string) :
  Is_valid_scale s = 1%Z <-> In s valid_scales.
Proof.
  unfold Is_valid_scale. induction valid_scales as [|entry rest IH]; simpl.
  - split; [discriminate | contradiction].
  - destruct (strcmp s entry =? 0)%Z eqn:E.
    + apply strcmp_zero_iff in E. split; auto.
    + apply strcmp_nonzero_iff in E. rewrite IH. split; [auto | intros [H|H]; congruence].
Qed.

Lemma Is_valid_scale_range (s : string) :
  Is_valid_scale s = 0%Z \/ Is_valid_scale s = 1%Z.
Proof.
  unfold Is_valid_scale. induction valid_scales as [|entry rest IH]; simpl; auto.
  destruct (strcmp s entry =? 0)%Z; auto.
Qed.

Lemma Get_type_known_In (s : string) :
  Get_type s <> UNKNOWN <-> In s valid_scales.
Proof.
  unfold Get_type, valid_scales.
  repeat (next_strcmp; simpl;
          [ subst; split; [ intros _; tauto | discriminate ] | ]).
  split; [congruence | ]. intros H.
  repeat (destruct H as [H|H]; [congruence|]). contradiction.
Qed.

Lemma Is_valid_scale_one_iff (s : string) :
  Is_valid_scale s = 1%Z <-> Get_type s <> UNKNOWN.
Proof.
  rewrite Is_valid_scale_In, Get_type_known_In. tauto.
Qed.

Lemma Is_valid_scale_zero_iff (s : string) :
  Is_valid_scale s = 0%Z <-> Get_type s = UNKNOWN.
Proof.
  split; intros H.
  - destruct (Temperature_eq_dec (Get_type s) UNKNOWN) as [|N]; [assumption|].
    apply Is_valid_scale_one_iff in N. congruence.
  - destruct (Is_valid_scale_range s) as [|V]; [assumption|].
    apply Is_valid_scale_one_iff in V. contradiction.
Qed.

Lemma valid_scales_NoDup : NoDup valid_scales.
Proof.
  unfold valid_scales.
  repeat (constructor; [ simpl; intros H;
    repeat (destruct H as [H|H]; [discriminate|]); contradiction | ]).
  constructor.
Qed.

(** C6. For every string [s], [Is_valid_scale s] returns true (the [int] 1)
    exactly when [Get_type s] is not [UNKNOWN], and returns false (0)
    exactly when it is; both functions decide membership in the one list
    [valid_scales], which holds 19 pairwise distinct literals. *)
Theorem C6_Is_valid_scale_iff_Get_type_known :
  (forall s, Is_valid_scale s = 1%Z <-> Get_type s <> UNKNOWN) /\
  (forall s, Is_valid_scale s = 0%Z <-> Get_type s = UNKNOWN) /\
  (forall s, Is_valid_scale s = 1%Z <-> In s valid_scales) /\
  (forall s, Get_type s <> UNKNOWN <-> In s valid_scales) /\
  List.length valid_scales = 19%nat /\
  NoDup valid_scales.
Proof.
  repeat apply conj.
  - exact Is_valid_scale_one_iff.
  - exact Is_valid_scale_zero_iff.
  - exact Is_valid_scale_In.
  - exact Get_type_known_In.
  - reflexivity.
  - exact valid_scales_NoDup.
Qed.

(** C7. [Get_type] maps "Re", "re" and "RE" to [REAUMUR], maps "R" and "r"
    to [RANKINE], and yields [UNKNOWN] for every string that is not one of
    the 19 literals of the whitelist; "X" and "rE" are two such strings. *)
Theorem C7_Get_type_casing_whitelist :
  Get_type "Re" = REAUMUR /\ Get_type "re" = REAUMUR /\ Get_type "RE" = REAUMUR /\
  Get_type "R" = RANKINE /\ Get_type "r" = RANKINE /\
  (forall s, ~ In s valid_scales -> Get_type s = UNKNOWN) /\
  Get_type "X" = UNKNOWN /\ Get_type "rE" = UNKNOWN.
Proof.
  repeat split; try reflexivity.
  intros s H. destruct (Temperature_eq_dec (Get_type s) UNKNOWN) as [|N]; [assumption|].
  apply Get_type_known_In in N. contradiction.
Qed.

(** * Conversion engine: control flow *)

(** Once both identifiers have been resolved, each program is a case
    analysis on the two tags and on the guard [value < 0]. *)
Ltac by_tags source target :=
  unfold Fixed.Convert_temperature, Enhanced.Convert_temperature;
  destruct (Get_type source); destruct (Get_type target);
  cbn; try congruence; try tauto.

Lemma Convert_temperature_same_on_known_target
  (value : float) (source target : string) :
  Get_type target <> UNKNOWN ->
  Fixed.Convert_temperature value source target
  = Enhanced.Convert_temperature value source target.
Proof.
  by_tags source target; intros _; destruct (value <? 0)%float; reflexivity.
Qed.

Lemma Enhanced_succeeds_on_valid_input
  (value : float) (source target : string) :
  Get_type source <> UNKNOWN ->
  Get_type target <> UNKNOWN ->
  (Get_type source = KELVIN \/ Get_type source = RANKINE ->
   (value <? 0)%float = false) ->
  exists r, Enhanced.Convert_temperature value source target = Ok r.
Proof.
  by_tags source target; intros _ _ G;
    try (rewrite G by auto); cbn; eexists; reflexivity.
Qed.

Lemma Both_return_on_valid_input
  (value : float) (source target : string) :
  Get_type source <> UNKNOWN ->
  Get_type target <> UNKNOWN ->
  (Get_type source = KELVIN \/ Get_type source = RANKINE ->
   (value <? 0)%float = false) ->
  exists r,
    Fixed.Convert_temperature value source target = Ok r /\
    Enhanced.Convert_temperature value source target = Ok r.
Proof.
  intros Hs Ht Hg.
  destruct (Enhanced_succeeds_on_valid_input value source target Hs Ht Hg) as [r Hr].
  exists r. split; [|exact Hr].
  now rewrite Convert_temperature_same_on_known_target.
Qed.

(** C9. On every input whose two identifiers resolve to known scales and
    whose value passes the absolute-scale guard, [Convert_temperature] of
    gradus_fixed.c and of gradus_enhanced.c both return, and return the
    same double. *)
Theorem C9_fixed_and_enhanced_agree
  (value : float) (source target : string) :
  Get_type source <> UNKNOWN ->
  Get_type target <> UNKNOWN ->
  (Get_type source = KELVIN \/ Get_type source = RANKINE ->
   (value <? 0)%float = false) ->
  exists r,
    Fixed.Convert_temperature value source target = Ok r /\
    Enhanced.Convert_temperature value source target = Ok r.
Proof.
  intros Hs Ht Hg.
  rewrite (Convert_temperature_same_on_known_target value source target Ht).
  destruct (Enhanced_succeeds_on_valid_input value source target Hs Ht Hg) as [r Hr].
  exists r. split; exact Hr.
Qed.

Lemma C9_witness :
  exists r,
    Fixed.Convert_temperature 300%float "k" "Ro" = Ok r /\
    Enhanced.Convert_temperature 300%float "k" "Ro" = Ok r.
Proof.
  apply (C9_fixed_and_enhanced_agree 300%float "k" "Ro").
  - vm_compute. discriminate.
  - vm_compute. discriminate.
  - intros _. vm_compute. reflexivity.
Defined.

(** ** The absolute-scale guard *)

(** C4. The guard looks at the source scale only.  For every target scale,
    a negative value (-1 among them) whose source resolves to Kelvin or
    Rankine makes both programs fail with [NegativeAbsoluteTemperature];
    a source that resolves to any of the six other scales converts every
    value, however negative, as [convert(-1, Celsius, Kelvin)] does. *)
Theorem C4_guard_applies_to_source_only (source target : string) :
  Get_type target <> UNKNOWN ->
  (Get_type source = KELVIN \/ Get_type source = RANKINE ->
   forall value, (value <? 0)%float = true ->
     Fixed.Convert_temperature value source target
       = Exit (NegativeAbsoluteTemperature source value) /\
     Enhanced.Convert_temperature value source target
       = Exit (NegativeAbsoluteTemperature source value)) /\
  (Get_type source <> KELVIN -> Get_type source <> RANKINE ->
   Get_type source <> UNKNOWN ->
   forall value, exists r,
     Fixed.Convert_temperature value source target = Ok r /\
     Enhanced.Convert_temperature value source target = Ok r).
Proof.
  intros Ht. split.
  - intros Hs value Hneg. revert Ht Hs.
    by_tags source target; intros _ [|]; try discriminate;
      rewrite Hneg; split; reflexivity.
  - intros H1 H2 H3 value.
    apply Both_return_on_valid_input; tauto.
Qed.

Lemma C4_witness :
  (Fixed.Convert_temperature (-1)%float "K" "C"
     = Exit (NegativeAbsoluteTemperature "K" (-1)%float) /\
   Enhanced.Convert_temperature (-1)%float "K" "C"
     = Exit (NegativeAbsoluteTemperature "K" (-1)%float)) /\
  (Fixed.Convert_temperature (-1)%float "R" "C"
     = Exit (NegativeAbsoluteTemperature "R" (-1)%float) /\
   Enhanced.Convert_temperature (-1)%float "R" "C"
     = Exit (NegativeAbsoluteTemperature "R" (-1)%float)) /\
  (exists r,
     Fixed.Convert_temperature (-1)%float "C" "K" = Ok r /\
     Enhanced.Convert_temperature (-1)%float "C" "K" = Ok r).
Proof.
  assert (TC : Get_type "C" <> UNKNOWN) by (vm_compute; discriminate).
  assert (TK : Get_type "K" <> UNKNOWN) by (vm_compute; discriminate).
  repeat apply conj.
  - apply (proj1 (C4_guard_applies_to_source_only "K" "C" TC));
      [ left; reflexivity | reflexivity ].
  - apply (proj1 (C4_guard_applies_to_source_only "K" "C" TC));
      [ left; reflexivity | reflexivity ].
  - apply (proj1 (C4_guard_applies_to_source_only "R" "C" TC));
      [ right; reflexivity | reflexivity ].
  - apply (proj1 (C4_guard_applies_to_source_only "R" "C" TC));
      [ right; reflexivity | reflexivity ].
  - apply (proj2 (C4_guard_applies_to_source_only "C" "K" TK));
      vm_compute; discriminate.
Defined.

(** C10. The guard is the strict test [value < 0], which is false at
    [0.0] and at the IEEE negative zero [-0.0].  For every target scale
    and every source identifier of Kelvin or Rankine both programs
    therefore convert [0.0] and [-0.0] and report no error. *)
Theorem C10_zero_and_negative_zero_accepted (source target : string) :
  Get_type source = KELVIN \/ Get_type source = RANKINE ->
  Get_type target <> UNKNOWN ->
  (0.0 <? 0)%float = false /\
  (-0.0 <? 0)%float = false /\
  (exists r,
     Fixed.Convert_temperature 0.0%float source target = Ok r /\
     Enhanced.Convert_temperature 0.0%float source target = Ok r) /\
  (exists r,
     Fixed.Convert_temperature (-0.0)%float source target = Ok r /\
     Enhanced.Convert_temperature (-0.0)%float source target = Ok r).
Proof.
  intros Hs Ht.
  assert (Hk : Get_type source <> UNKNOWN) by (destruct Hs as [E|E]; rewrite E; discriminate).
  repeat apply conj; try reflexivity;
    apply Both_return_on_valid_input; auto.
Qed.

Lemma C10_witness :
  (0.0 <? 0)%float = false /\
  (-0.0 <? 0)%float = false /\
  (exists r,
     Fixed.Convert_temperature 0.0%float "R" "De" = Ok r /\
     Enhanced.Convert_temperature 0.0%float "R" "De" = Ok r) /\
  (exists r,
     Fixed.Convert_temperature (-0.0)%float "R" "De" = Ok r /\
     Enhanced.Convert_temperature (-0.0)%float "R" "De" = Ok r).
Proof.
  apply (C10_zero_and_negative_zero_accepted "R" "De").
  - right. reflexivity.
  - vm_compute. discriminate.
Defined.

(** ** Order of the checks *)

Lemma Enhanced_unknown_scale_first (value : float) (source target : string) :
  (Get_type source = UNKNOWN ->
   Enhanced.Convert_temperature value source target
     = Exit (UnknownScale SourceSide source)) /\
  (Get_type source <> UNKNOWN -> Get_type target = UNKNOWN ->
   Enhanced.Convert_temperature value source target
     = Exit (UnknownScale TargetSide target)).
Proof.
  split; by_tags source target.
Qed.

Lemma Fixed_unknown_source_first (value : float) (source target : string) :
  Get_type source = UNKNOWN ->
  Fixed.Convert_temperature value source target
    = Exit (UnknownScale SourceSide source).
Proof.
  by_tags source target.
Qed.

(** In gradus_fixed.c an unknown target is only met by the [default] case
    of the target [switch], after the guard has run. *)
Lemma Fixed_unknown_target_after_guard (value : float) (source target : string) :
  Get_type source <> UNKNOWN -> Get_type target = UNKNOWN ->
  Fixed.Convert_temperature value source target
  = if ((Temperature_eqb (Get_type source) KELVIN
         || Temperature_eqb (Get_type source) RANKINE)
        && (value <? 0)%float)%bool
    then Exit (NegativeAbsoluteTemperature source value)
    else Exit (UnknownScale TargetSide target).
Proof.
  by_tags source target; intros _ _; destruct (value <? 0)%float; reflexivity.
Qed.

(** Through [main] the order is the same in both programs: an identifier
    outside the whitelist stops the process before any value is
    converted, so the late target check of gradus_fixed.c is not reached
    from the command line. *)
Lemma main_unknown_scale_first (source target : string) (v : float) :
  (Get_type source = UNKNOWN ->
   Fixed.main_convert source target v = Exit (UnknownScale SourceSide source) /\
   Enhanced.main_convert source target v = Exit (UnknownScale SourceSide source)) /\
  (Get_type source <> UNKNOWN -> Get_type target = UNKNOWN ->
   Fixed.main_convert source target v = Exit (UnknownScale TargetSide target) /\
   Enhanced.main_convert source target v = Exit (UnknownScale TargetSide target)).
Proof.
  unfold Fixed.main_convert, Enhanced.main_convert. split.
  - intros Hs. apply Is_valid_scale_zero_iff in Hs. rewrite Hs. split; reflexivity.
  - intros Hs Ht. apply Is_valid_scale_one_iff in Hs.
    apply Is_valid_scale_zero_iff in Ht. rewrite Hs, Ht. split; reflexivity.
Qed.

Lemma main_convert_on_valid_input (source target : string) (v : float) :
  Get_type source <> UNKNOWN -> Get_type target <> UNKNOWN ->
  Fixed.main_convert source target v
    = bind (Fixed.Convert_temperature v source target)
           (fun r => Ok (Print_result r)) /\
  Enhanced.main_convert source target v
    = bind (Enhanced.Convert_temperature v source target)
           (fun r => Ok (Print_result r)).
Proof.
  intros Hs Ht. unfold Fixed.main_convert, Enhanced.main_convert.
  apply Is_valid_scale_one_iff in Hs, Ht. rewrite Hs, Ht. split; reflexivity.
Qed.

(** The late target test of gradus_fixed.c, met by a direct call of
    [Convert_temperature] with a negative Kelvin value and an identifier
    outside the whitelist as target. *)
Lemma C5_counterexample :
  Get_type "K" = KELVIN /\ Get_type "X" = UNKNOWN /\
  (-1 <? 0)%float = true /\
  Fixed.Convert_temperature (-1)%float "K" "X"
    = Exit (NegativeAbsoluteTemperature "K" (-1)%float).
Proof.
  repeat apply conj; reflexivity.
Qed.

Lemma main_stops_on_unknown_scale
  (strtod : string -> float * nat * Z) (ERANGE : Z)
  (input_separator output_separator : option string) (array_mode : bool)
  (source target : string) (side : Side) (identifier : string)
  (args : list string) (stdin out : string) :
  (Get_type source = UNKNOWN /\ side = SourceSide /\ identifier = source) \/
  (Get_type source <> UNKNOWN /\ Get_type target = UNKNOWN /\
   side = TargetSide /\ identifier = target) ->
  Fixed_main strtod ERANGE (Some source) (Some target) args stdin out
    = (out, Stop (Conversion (UnknownScale side identifier))) /\
  Enhanced_main strtod ERANGE input_separator output_separator array_mode
    (Some source) (Some target) args stdin out
    = (out, Stop (Conversion (UnknownScale side identifier))).
Proof.
  unfold Fixed_main, Enhanced_main, stop_when, and_then.
  intros [(Hs & -> & ->) | (Hs & Ht & -> & ->)].
  - apply Is_valid_scale_zero_iff in Hs. rewrite Hs. split; reflexivity.
  - apply Is_valid_scale_one_iff in Hs. apply Is_valid_scale_zero_iff in Ht.
    rewrite Hs, Ht. split; reflexivity.
Qed.

(** C5, amended.  In gradus_enhanced.c [Convert_temperature] resolves both
    identifiers before the guard: for every value, an identifier that
    resolves to [UNKNOWN] makes it fail with [UnknownScale] on that side,
    the source first.  In gradus_fixed.c [Convert_temperature] resolves
    only the source before the guard and reports an unknown target after
    it, when the guard has passed.  Its one caller is [main], which has
    stopped the process at an identifier that [Is_valid_scale] rejects:
    in both programs, whatever the values given and in every mode, an
    unknown scale ends the process with [UnknownScale] on its side before
    anything is parsed, converted or written. *)
Theorem C5_unknown_scale_reported_first
  (strtod : string -> float * nat * Z) (ERANGE : Z)
  (input_separator output_separator : option string) (array_mode : bool)
  (value : float) (source target : string)
  (args : list string) (stdin out : string) :
  (Get_type source = UNKNOWN ->
   Enhanced.Convert_temperature value source target
     = Exit (UnknownScale SourceSide source) /\
   Fixed.Convert_temperature value source target
     = Exit (UnknownScale SourceSide source) /\
   Fixed_main strtod ERANGE (Some source) (Some target) args stdin out
     = (out, Stop (Conversion (UnknownScale SourceSide source))) /\
   Enhanced_main strtod ERANGE input_separator output_separator array_mode
     (Some source) (Some target) args stdin out
     = (out, Stop (Conversion (UnknownScale SourceSide source)))) /\
  (Get_type source <> UNKNOWN -> Get_type target = UNKNOWN ->
   Enhanced.Convert_temperature value source target
     = Exit (UnknownScale TargetSide target) /\
   Fixed.Convert_temperature value source target
     = (if ((Temperature_eqb (Get_type source) KELVIN
             || Temperature_eqb (Get_type source) RANKINE)
            && (value <? 0)%float)%bool
        then Exit (NegativeAbsoluteTemperature source value)
        else Exit (UnknownScale TargetSide target)) /\
   Fixed_main strtod ERANGE (Some source) (Some target) args stdin out
     = (out, Stop (Conversion (UnknownScale TargetSide target))) /\
   Enhanced_main strtod ERANGE input_separator output_separator array_mode
     (Some source) (Some target) args stdin out
     = (out, Stop (Conversion (UnknownScale TargetSide target)))).
Proof.
  split.
  - intros Hs. repeat apply conj.
    + now apply Enhanced_unknown_scale_first.
    + now apply Fixed_unknown_source_first.
    + apply (main_stops_on_unknown_scale strtod ERANGE input_separator
               output_separator array_mode). left. auto.
    + apply (main_stops_on_unknown_scale strtod ERANGE input_separator
               output_separator array_mode). left. auto.
  - intros Hs Ht. repeat apply conj.
    + now apply Enhanced_unknown_scale_first.
    + now apply Fixed_unknown_target_after_guard.
    + apply (main_stops_on_unknown_scale strtod ERANGE input_separator
               output_separator array_mode). right. auto.
    + apply (main_stops_on_unknown_scale strtod ERANGE input_separator
               output_separator array_mode). right. auto.
Qed.

Lemma C5_witness :
  Enhanced.Convert_temperature (-1)%float "K" "X"
    = Exit (UnknownScale TargetSide "X") /\
  Fixed_main strtod_integers 34%Z (Some "K") (Some "X") ["-1"]
    EmptyString EmptyString
    = (EmptyString, Stop (Conversion (UnknownScale TargetSide "X"))) /\
  Enhanced_main strtod_integers 34%Z None None false (Some "K") (Some "X") ["-1"]
    EmptyString EmptyString
    = (EmptyString, Stop (Conversion (UnknownScale TargetSide "X"))).
Proof.
  assert (Hs : Get_type "K" <> UNKNOWN) by (vm_compute; discriminate).
  assert (Ht : Get_type "X" = UNKNOWN) by reflexivity.
  destruct (proj2 (C5_unknown_scale_reported_first strtod_integers 34%Z None None
                     false (-1)%float "K" "X" ["-1"] EmptyString EmptyString)
              Hs Ht) as (HE & _ & HFm & HEm).
  repeat apply conj; assumption.
Defined.

(** ** The Rankine transform *)

(** C3. A value [r] whose source identifier resolves to Rankine, and which
    passes the guard, is normalised to Celsius in both programs as the
    double expression [(r - (-459.67) + 32.0) * (5.0 / 9.0)]; read over
    the rationals the formula is [(r + 491.67) * 5/9]. *)
Theorem C3_Rankine_to_Celsius_formula (r : float) (source : string) :
  Get_type source = RANKINE ->
  (r <? 0)%float = false ->
  Rankine_to_Celsius r = ((r - (- 459.67) + 32.0) * (5.0 / 9.0))%float /\
  Fixed.Convert_temperature r source "C"
    = Ok ((r - (- 459.67) + 32.0) * (5.0 / 9.0))%float /\
  Enhanced.Convert_temperature r source "C"
    = Ok ((r - (- 459.67) + 32.0) * (5.0 / 9.0))%float /\
  (forall q : Q,
     Ideal.to_celsius RANKINE q == (q - (- 459.67) + 32) * (5 / 9) /\
     Ideal.to_celsius RANKINE q == (q + 491.67) * (5 / 9))%Q.
Proof.
  intros Hs Hg. repeat apply conj.
  - reflexivity.
  - unfold Fixed.Convert_temperature. rewrite Hs. cbn. rewrite Hg. reflexivity.
  - unfold Enhanced.Convert_temperature. rewrite Hs. cbn. rewrite Hg. reflexivity.
  - intros q. cbn. unfold Ideal.Rankine_to_Celsius, Ideal.ABSOLUTE_ZERO_FAHRENHEIT,
      Ideal.CELSIUS_RATIO. split; field.
Qed.

Lemma C3_witness :
  Rankine_to_Celsius 491.67%float
    = ((491.67 - (- 459.67) + 32.0) * (5.0 / 9.0))%float /\
  Fixed.Convert_temperature 491.67%float "r" "C"
    = Ok ((491.67 - (- 459.67) + 32.0) * (5.0 / 9.0))%float /\
  Enhanced.Convert_temperature 491.67%float "r" "C"
    = Ok ((491.67 - (- 459.67) + 32.0) * (5.0 / 9.0))%float /\
  (forall q : Q,
     Ideal.to_celsius RANKINE q == (q - (- 459.67) + 32) * (5 / 9) /\
     Ideal.to_celsius RANKINE q == (q + 491.67) * (5 / 9))%Q.
Proof.
  apply (C3_Rankine_to_Celsius_formula 491.67%float "r"); reflexivity.
Defined.

(** * Display layer: properties *)

Lemma printf_2f_zero : printf_2f 0.0%float = "0.00".
Proof. reflexivity. Qed.

(** Without the rule a small negative result prints with a minus sign. *)
Lemma printf_2f_small_negative : printf_2f (-0.001)%float = "-0.00".
Proof. vm_compute. reflexivity. Qed.

(** The rule compares with [r != 0.0], which is false at the IEEE negative
    zero: that value is left alone and prints with its sign. *)
Lemma Print_result_negative_zero :
  Avoid_negative_zero (-0.0)%float = (-0.0)%float /\
  Print_result (-0.0)%float = "-0.00".
Proof. split; vm_compute; reflexivity. Qed.

(** A result that the rule does not catch is printed as it is. *)
Lemma Avoid_negative_zero_otherwise (r : float) :
  ((abs r <? 0.005)%float && negb (r =? 0.0)%float)%bool = false ->
  Avoid_negative_zero r = r.
Proof.
  unfold Avoid_negative_zero. intros ->. reflexivity.
Qed.

(** C8. Every result [r] with [fabs(r) < 0.005] and [r != 0.0] is replaced
    by [0.0] before it is formatted with two decimals, and is printed as
    "0.00"; so is the result -0.001, which [printf] alone would print as
    "-0.00". *)
Theorem C8_small_results_print_as_zero (r : float) :
  (abs r <? 0.005)%float = true ->
  (r =? 0.0)%float = false ->
  Avoid_negative_zero r = 0.0%float /\
  Print_result r = "0.00".
Proof.
  intros Hsmall Hnz. unfold Print_result, Avoid_negative_zero.
  rewrite Hsmall, Hnz. split; reflexivity.
Qed.

Lemma C8_witness :
  Avoid_negative_zero (-0.001)%float = 0.0%float /\
  Print_result (-0.001)%float = "0.00".
Proof.
  apply (C8_small_results_print_as_zero (-0.001)%float); reflexivity.
Defined.

(** * The transforms in exact arithmetic: properties *)

Module IdealFacts.

Import Ideal.
Local Open Scope Q_scope.

Ltac unfold_transforms :=
  unfold from_celsius, to_celsius,
    Celsius_to_Fahrenheit, Fahrenheit_to_Celsius,
    Celsius_to_Kelvin, Kelvin_to_Celsius,
    Celsius_to_Rankine, Rankine_to_Celsius,
    Celsius_to_Reaumur, Reaumur_to_Celsius,
    Celsius_to_Delisle, Delisle_to_Celsius,
    Celsius_to_Newton, Newton_to_Celsius,
    Celsius_to_Romer, Romer_to_Celsius,
    FAHRENHEIT_RATIO, CELSIUS_RATIO, ABSOLUTE_ZERO_CELSIUS,
    ABSOLUTE_ZERO_FAHRENHEIT, REAUMUR_RATIO, DELISLE_RATIO, NEWTON_RATIO,
    ROMER_RATIO, ROMER_OFFSET, DELISLE_BASE.

(** Seven of the eight pairs of transforms are inverse to each other. *)
Lemma from_to_celsius (S : Temperature) (x : Q) :
  S <> RANKINE -> S <> UNKNOWN ->
  from_celsius S (to_celsius S x) == x.
Proof.
  intros HR HU. destruct S; try congruence; unfold_transforms; field.
Qed.

Lemma to_from_celsius (S : Temperature) (c : Q) :
  S <> RANKINE -> S <> UNKNOWN ->
  to_celsius S (from_celsius S c) == c.
Proof.
  intros HR HU. destruct S; try congruence; unfold_transforms; field.
Qed.

(** The Rankine pair is not: [Celsius_to_Rankine] puts 0 Rankine at
    absolute zero, [Rankine_to_Celsius] adds 491.67 where the inverse
    subtracts it, and the round trip is a shift by 983.34. *)
Lemma Rankine_round_trip_shift (r : Q) :
  from_celsius RANKINE (to_celsius RANKINE r) == r + 983.34.
Proof.
  unfold_transforms; field.
Qed.

Lemma Celsius_to_Rankine_inverse (r : Q) :
  Celsius_to_Rankine ((r - 491.67) * CELSIUS_RATIO) == r.
Proof.
  unfold_transforms; field.
Qed.

Lemma Rankine_to_Celsius_of_absolute_zero :
  Rankine_to_Celsius 0 == 273.15 /\ Celsius_to_Rankine ABSOLUTE_ZERO_CELSIUS == 0.
Proof.
  unfold_transforms; split; field.
Qed.

End IdealFacts.

(** * Round trip and identity on doubles *)

(** Conversions within Celsius perform no arithmetic and are exact. *)
Lemma Celsius_identity_exact (x : float) :
  Fixed.Convert_temperature x "C" "C" = Ok x /\
  Enhanced.Convert_temperature x "C" "C" = Ok x /\
  round_trip Fixed.Convert_temperature x "C" = Ok x /\
  round_trip Enhanced.Convert_temperature x "C" = Ok x.
Proof. repeat split. Qed.

(** Other scales go through the two transforms even when source and
    target coincide, and each operation rounds. *)
Lemma Fahrenheit_identity_rounds :
  Fixed.Convert_temperature 0.1%float "F" "F" = Ok 0.10000000000000142%float /\
  Enhanced.Convert_temperature 0.1%float "F" "F" = Ok 0.10000000000000142%float /\
  within 1e-9 0.10000000000000142 0.1 = true.
Proof. repeat split. Qed.

(** Near the top of the double range the division by [NEWTON_RATIO]
    overflows. *)
Lemma Newton_round_trip_overflows :
  finite 1e308 = true /\
  round_trip Fixed.Convert_temperature 1e308%float "N" = Ok infinity /\
  round_trip Enhanced.Convert_temperature 1e308%float "N" = Ok infinity.
Proof. repeat split. Qed.

(** C1. The round trip through Celsius does not return a Rankine value:
    at the finite, non-negative input 0 with source "R" both programs
    first give 273.15000000000003 and then 983.33999999999992, which is
    not within 1e-9 of 0.  The shift is in the formulas and not in their
    rounding: over the rationals the Rankine round trip of every [r] is
    [r + 983.34]. *)
Theorem C1_Rankine_round_trip_shifted :
  finite 0.0 = true /\
  (0.0 <? 0)%float = false /\
  Fixed.Convert_temperature 0.0%float "R" "C" = Ok 273.15000000000003%float /\
  Enhanced.Convert_temperature 0.0%float "R" "C" = Ok 273.15000000000003%float /\
  round_trip Fixed.Convert_temperature 0.0%float "R"
    = Ok 983.33999999999992%float /\
  round_trip Enhanced.Convert_temperature 0.0%float "R"
    = Ok 983.33999999999992%float /\
  within 1e-9 983.33999999999992 0.0 = false /\
  (forall r : Q,
     Ideal.from_celsius RANKINE (Ideal.to_celsius RANKINE r) == r + 983.34)%Q.
Proof.
  repeat apply conj; try reflexivity.
  exact IdealFacts.Rankine_round_trip_shift.
Qed.

(** C2. Converting a Rankine value to Rankine does not return it: at the
    finite, non-negative input 0 both programs return 983.33999999999992
    for [convert(0, "R", "R")], which the C comparison [==] tells apart
    from 0. *)
Theorem C2_Rankine_identity_fails :
  finite 0.0 = true /\
  (0.0 <? 0)%float = false /\
  Get_type "R" = RANKINE /\
  Fixed.Convert_temperature 0.0%float "R" "R" = Ok 983.33999999999992%float /\
  Enhanced.Convert_temperature 0.0%float "R" "R" = Ok 983.33999999999992%float /\
  (983.33999999999992 =? 0.0)%float = false.
Proof.
  repeat apply conj; reflexivity.
Qed.

(** On doubles the two additions of [Rankine_to_Celsius] round one after
    the other, so the regrouped [(r + 491.67) * (5.0 / 9.0)] can differ
    from it in the last place. *)
Lemma Rankine_to_Celsius_regrouped_rounds :
  Rankine_to_Celsius 39.13779859691058%float = 294.8932214427281%float /\
  ((39.13779859691058 + 491.67) * (5.0 / 9.0))%float = 294.89322144272813%float /\
  (294.8932214427281 =? 294.89322144272813)%float = false.
Proof. repeat split. Qed.

(** * Further properties of the scale registry *)

(** X1. [Get_type] resolves to each scale from exactly the identifiers
    listed for it, and from no other string. *)
Theorem Get_type_identifiers (s : string) :
  (Get_type s = CELSIUS <-> s = "C" \/ s = "c") /\
  (Get_type s = FAHRENHEIT <-> s = "F" \/ s = "f") /\
  (Get_type s = KELVIN <-> s = "K" \/ s = "k") /\
  (Get_type s = RANKINE <-> s = "R" \/ s = "r") /\
  (Get_type s = REAUMUR <-> s = "Re" \/ s = "re" \/ s = "RE") /\
  (Get_type s = DELISLE <-> s = "De" \/ s = "de" \/ s = "DE") /\
  (Get_type s = NEWTON <-> s = "N" \/ s = "n") /\
  (Get_type s = ROMER <-> s = "Ro" \/ s = "ro" \/ s = "RO").
Proof.
  unfold Get_type.
  repeat (next_strcmp; simpl;
          [ subst; repeat apply conj;
            solve [ discriminate
                  | intros _; auto 6
                  | intros H;
                    repeat (destruct H as [H|H]; try discriminate; try reflexivity);
                    try discriminate; reflexivity ]
          | ]).
  repeat apply conj; try discriminate;
    intros H; repeat (destruct H as [H|H]; try congruence); congruence.
Qed.

(** X2. An identifier that is empty or longer than two characters, a full
    scale name for one, is rejected by [Is_valid_scale] and resolved to
    [UNKNOWN] by [Get_type]. *)
Theorem long_or_empty_identifier_rejected (s : string) :
  String.length s = 0%nat \/ (2 < String.length s)%nat ->
  Is_valid_scale s = 0%Z /\ Get_type s = UNKNOWN.
Proof.
  intros Hlen.
  assert (U : Get_type s = UNKNOWN).
  { destruct (Temperature_eq_dec (Get_type s) UNKNOWN) as [|N]; [assumption|].
    exfalso. apply Get_type_known_In in N. unfold valid_scales in N.
    repeat (destruct N as [N|N]; [subst s; cbn in Hlen; lia|]). contradiction. }
  split; [apply Is_valid_scale_zero_iff|]; exact U.
Qed.

Lemma long_or_empty_identifier_rejected_witness :
  (Is_valid_scale "Celsius" = 0%Z /\ Get_type "Celsius" = UNKNOWN) /\
  (Is_valid_scale "" = 0%Z /\ Get_type "" = UNKNOWN).
Proof.
  split.
  - apply (long_or_empty_identifier_rejected "Celsius"). right. cbn. lia.
  - apply (long_or_empty_identifier_rejected ""). left. reflexivity.
Defined.

(** * Further properties of [Convert_temperature] *)

(** X3. The result depends on the identifiers only through the scales
    they resolve to: when a conversion succeeds, the same value is
    returned for any other spelling of the two scales. *)
Theorem Convert_temperature_spelling_independent
  (value : float) (source source' target target' : string) (r : float) :
  Get_type source = Get_type source' ->
  Get_type target = Get_type target' ->
  (Fixed.Convert_temperature value source target = Ok r ->
   Fixed.Convert_temperature value source' target' = Ok r) /\
  (Enhanced.Convert_temperature value source target = Ok r ->
   Enhanced.Convert_temperature value source' target' = Ok r).
Proof.
  intros Hs Ht.
  unfold Fixed.Convert_temperature, Enhanced.Convert_temperature.
  rewrite <- Hs, <- Ht.
  destruct (Get_type source); destruct (Get_type target); cbn;
    split; try discriminate; try (intros H; exact H);
    destruct (value <? 0)%float; cbn; try discriminate; intros H; exact H.
Qed.

Lemma Convert_temperature_spelling_independent_witness :
  Fixed.Convert_temperature 300%float "k" "RE" = Ok 21.480000000000018%float /\
  Enhanced.Convert_temperature 300%float "k" "RE" = Ok 21.480000000000018%float.
Proof.
  pose proof (Convert_temperature_spelling_independent
                300%float "K" "k" "Re" "RE" 21.480000000000018%float
                eq_refl eq_refl) as [HF HE].
  split; [apply HF | apply HE]; reflexivity.
Defined.

(** X4. Both programs convert exactly the same inputs: a call returns a
    value if and only if both identifiers are known and the value is not
    below zero on a Kelvin or Rankine source. *)
Theorem Convert_temperature_succeeds_iff
  (value : float) (source target : string) :
  let valid :=
    Get_type source <> UNKNOWN /\ Get_type target <> UNKNOWN /\
    (Get_type source = KELVIN \/ Get_type source = RANKINE ->
     (value <? 0)%float = false) in
  ((exists r, Fixed.Convert_temperature value source target = Ok r) <-> valid) /\
  ((exists r, Enhanced.Convert_temperature value source target = Ok r) <-> valid).
Proof.
  cbv zeta. split; split.
  - intros [r H]. revert H. by_tags source target;
      destruct (value <? 0)%float; cbn; intros H; try discriminate;
      repeat split; try discriminate; intros [|]; congruence.
  - intros (Hs & Ht & Hg).
    destruct (Both_return_on_valid_input value source target Hs Ht Hg) as [r [H _]].
    exists r. exact H.
  - intros [r H]. revert H. by_tags source target;
      destruct (value <? 0)%float; cbn; intros H; try discriminate;
      repeat split; try discriminate; intros [|]; congruence.
  - intros (Hs & Ht & Hg).
    destruct (Both_return_on_valid_input value source target Hs Ht Hg) as [r [_ H]].
    exists r. exact H.
Qed.

(** X5. Every error is justified by the call that raised it: an
    [UnknownScale] error carries the identifier passed on that side, and
    that identifier is not in the whitelist; a
    [NegativeAbsoluteTemperature] error carries the source identifier and
    the value passed, the source is Kelvin or Rankine and the value is
    below zero.  In gradus_enhanced.c the target is known whenever the
    guard fires; in gradus_fixed.c the guard has passed whenever an
    unknown target is reported. *)
Theorem Convert_temperature_errors_justified
  (value : float) (source target : string) (e : ConversionError) :
  (Fixed.Convert_temperature value source target = Exit e ->
   error_justified false value source target e) /\
  (Enhanced.Convert_temperature value source target = Exit e ->
   error_justified true value source target e).
Proof.
  split; intros H; revert H;
    unfold Fixed.Convert_temperature, Enhanced.Convert_temperature;
    destruct (Get_type source) eqn:Es; destruct (Get_type target) eqn:Et; cbn;
    try discriminate;
    try (destruct (value <? 0)%float eqn:Ev; cbn); try discriminate;
    intros H; injection H as <-; cbn;
    repeat split; auto; try discriminate; try congruence;
    intros; try discriminate; try tauto;
    match goal with H : _ \/ _ |- _ => destruct H; congruence end.
Qed.

Lemma Convert_temperature_errors_justified_witness :
  error_justified false (-5)%float "r" "zz"
    (NegativeAbsoluteTemperature "r" (-5)%float) /\
  error_justified true (-5)%float "r" "zz" (UnknownScale TargetSide "zz").
Proof.
  split.
  - apply (proj1 (Convert_temperature_errors_justified (-5)%float "r" "zz" _)).
    reflexivity.
  - apply (proj2 (Convert_temperature_errors_justified (-5)%float "r" "zz" _)).
    reflexivity.
Defined.

(** * Tokens of [strtok] *)

Lemma skip_delims_length (delims s : string) :
  (String.length (skip_delims delims s) <= String.length s)%nat.
Proof.
  induction s as [|c s IH]; simpl; [lia|].
  destruct (is_delim delims c); simpl; lia.
Qed.

Lemma skip_delims_head (delims s : string) (c : ascii) (s' : string) :
  skip_delims delims s = String c s' -> is_delim delims c = false.
Proof.
  induction s as [|a s IH]; simpl; [discriminate|].
  destruct (is_delim delims a) eqn:Ea; [exact IH|].
  intros H. injection H as -> _. exact Ea.
Qed.

Lemma scan_token_length (delims s : string) :
  (String.length (snd (scan_token delims s)) <= String.length s)%nat.
Proof.
  induction s as [|c s IH]; simpl; [lia|].
  destruct (is_delim delims c); simpl; [lia|].
  destruct (scan_token delims s) as [token saved]. simpl in *. lia.
Qed.

Lemma strtok_shrinks (delims saved token saved' : string) :
  strtok delims saved = Some (token, saved') ->
  (String.length saved' < String.length saved)%nat.
Proof.
  unfold strtok. pose proof (skip_delims_length delims saved) as Hlen.
  destruct (skip_delims delims saved) as [|c s] eqn:Es; [discriminate|].
  pose proof (skip_delims_head _ _ _ _ Es) as Hc.
  simpl. rewrite Hc.
  pose proof (scan_token_length delims s) as Hs.
  destruct (scan_token delims s) as [t r]. simpl in *.
  intros H. injection H as _ <-. lia.
Qed.

(** Calls beyond the first NULL are not needed: any number of calls above
    the length of the input gives the same tokens. *)
Lemma strtok_calls_enough (delims : string) (fuel fuel' : nat) (saved : string) :
  (String.length saved < fuel)%nat -> (String.length saved < fuel')%nat ->
  strtok_calls fuel delims saved = strtok_calls fuel' delims saved.
Proof.
  revert fuel' saved. induction fuel as [|fuel IH]; intros fuel' saved H H'; [lia|].
  destruct fuel' as [|fuel']; [lia|]. simpl.
  destruct (strtok delims saved) as [[token saved']|] eqn:E; [|reflexivity].
  apply strtok_shrinks in E. f_equal. apply IH; lia.
Qed.

Lemma strtok_tokens_step (delims input : string) :
  strtok_tokens delims input
  = match strtok delims input with
    | None => []
    | Some (token, saved) => token :: strtok_tokens delims saved
    end.
Proof.
  unfold strtok_tokens at 1. simpl.
  destruct (strtok delims input) as [[token saved]|] eqn:E; [|reflexivity].
  apply strtok_shrinks in E. f_equal.
  apply strtok_calls_enough; lia.
Qed.

Lemma scan_token_well_formed (delims s : string) :
  forallb (fun c => negb (is_delim delims c))
          (list_ascii_of_string (fst (scan_token delims s))) = true.
Proof.
  induction s as [|c s IH]; simpl; [reflexivity|].
  destruct (is_delim delims c) eqn:Ec; [reflexivity|].
  destruct (scan_token delims s) as [token saved]. simpl in *.
  now rewrite Ec, IH.
Qed.

Lemma strtok_well_formed (delims saved token saved' : string) :
  strtok delims saved = Some (token, saved') ->
  well_formed_token delims token = true.
Proof.
  unfold strtok.
  destruct (skip_delims delims saved) as [|c s] eqn:Es; [discriminate|].
  pose proof (skip_delims_head _ _ _ _ Es) as Hc.
  pose proof (scan_token_well_formed delims (String c s)) as Hw.
  destruct (scan_token delims (String c s)) as [t r] eqn:Et.
  intros H. injection H as <- _. unfold well_formed_token.
  simpl in Hw. rewrite Hw. simpl in Et. rewrite Hc in Et.
  destruct (scan_token delims s). injection Et as <- _. reflexivity.
Qed.

Lemma strtok_calls_well_formed (fuel : nat) (delims saved : string) :
  forallb (well_formed_token delims) (strtok_calls fuel delims saved) = true.
Proof.
  revert saved. induction fuel as [|fuel IH]; intros saved; [reflexivity|].
  simpl. destruct (strtok delims saved) as [[token saved']|] eqn:E; [|reflexivity].
  simpl. now rewrite (strtok_well_formed _ _ _ _ E), IH.
Qed.

Lemma strtok_tokens_nonempty (delims input : string) :
  forallb (fun token => (0 <? String.length token)%nat)
          (strtok_tokens delims input) = true.
Proof.
  pose proof (strtok_calls_well_formed (S (String.length input)) delims input) as W.
  fold (strtok_tokens delims input) in W.
  rewrite forallb_forall in *. intros token Hin. specialize (W token Hin).
  unfold well_formed_token in W. now apply andb_true_iff in W.
Qed.

(** X6. No token that [strtok] returns is empty or contains a delimiter;
    the test [strlen(token) > 0] of [Process_array] therefore never
    fails. *)
Theorem strtok_tokens_well_formed (delims input : string) :
  forallb (well_formed_token delims) (strtok_tokens delims input) = true /\
  forallb (fun token => (0 <? String.length token)%nat)
          (strtok_tokens delims input) = true.
Proof.
  split.
  - apply strtok_calls_well_formed.
  - apply strtok_tokens_nonempty.
Qed.

Lemma skip_delims_only_delims (delims d s : string) :
  only_delims delims d = true ->
  skip_delims delims (d ++ s) = skip_delims delims s.
Proof.
  unfold only_delims. induction d as [|c d IH]; simpl; [reflexivity|].
  intros H. apply andb_true_iff in H as [Hc Hd]. rewrite Hc. now apply IH.
Qed.

Lemma strtok_tokens_skip (delims d s : string) :
  only_delims delims d = true ->
  strtok_tokens delims (d ++ s) = strtok_tokens delims s.
Proof.
  intros H. rewrite (strtok_tokens_step delims (d ++ s)), (strtok_tokens_step delims s).
  unfold strtok. now rewrite skip_delims_only_delims.
Qed.

Lemma skip_delims_token (delims token s : string) :
  well_formed_token delims token = true ->
  skip_delims delims (token ++ s) = token ++ s.
Proof.
  unfold well_formed_token. destruct token as [|c token]; simpl; [discriminate|].
  intros H. apply andb_true_iff in H as [H _].
  apply negb_true_iff in H. now rewrite H.
Qed.

Lemma scan_token_end (delims token : string) :
  forallb (fun c => negb (is_delim delims c)) (list_ascii_of_string token) = true ->
  scan_token delims token = (token, EmptyString).
Proof.
  induction token as [|c token IH]; simpl; [reflexivity|].
  intros H. apply andb_true_iff in H as [Hc Ht].
  apply negb_true_iff in Hc. now rewrite Hc, IH.
Qed.

Lemma scan_token_delim (delims token : string) (d : ascii) (s : string) :
  forallb (fun c => negb (is_delim delims c)) (list_ascii_of_string token) = true ->
  is_delim delims d = true ->
  scan_token delims (token ++ String d s) = (token, s).
Proof.
  intros Ht Hd. induction token as [|c token IH]; simpl.
  - now rewrite Hd.
  - simpl in Ht. apply andb_true_iff in Ht as [Hc Ht].
    apply negb_true_iff in Hc. now rewrite Hc, IH.
Qed.

Lemma append_nonempty (token s : string) :
  (0 <? String.length token)%nat = true ->
  exists c rest, token ++ s = String c rest.
Proof.
  destruct token as [|c token]; simpl; [discriminate|]. eauto.
Qed.

Lemma strtok_last (delims token : string) :
  well_formed_token delims token = true ->
  strtok delims token = Some (token, EmptyString).
Proof.
  intros Hw. pose proof Hw as Hw'. unfold well_formed_token in Hw'.
  apply andb_true_iff in Hw' as [Hlen Hfree].
  unfold strtok. destruct token as [|c token]; [discriminate|].
  pose proof Hfree as Hc. simpl in Hc. apply andb_true_iff in Hc as [Hc _].
  apply negb_true_iff in Hc. cbn [skip_delims]. rewrite Hc.
  now rewrite scan_token_end.
Qed.

(** X7. Splitting undoes joining: when non-empty, delimiter-free tokens
    are joined by a non-empty separator made of delimiter characters,
    [strtok] returns exactly those tokens, in order. *)
Theorem strtok_tokens_of_concat (delims separator : string) (tokens : list string) :
  forallb (well_formed_token delims) tokens = true ->
  (0 <? String.length separator)%nat = true ->
  only_delims delims separator = true ->
  strtok_tokens delims (String.concat separator tokens) = tokens.
Proof.
  intros Hw Hn Hd. induction tokens as [|x rest IH]; [reflexivity|].
  simpl in Hw. apply andb_true_iff in Hw as [Hx Hrest].
  specialize (IH Hrest).
  pose proof Hx as Hx'. unfold well_formed_token in Hx'.
  apply andb_true_iff in Hx' as [Hlen Hfree].
  destruct rest as [|y rest].
  - simpl. rewrite strtok_tokens_step, (strtok_last delims x Hx).
    reflexivity.
  - change (String.concat separator (x :: y :: rest))
      with (x ++ separator ++ String.concat separator (y :: rest)).
    rewrite strtok_tokens_step. unfold strtok.
    rewrite skip_delims_token by exact Hx.
    destruct (append_nonempty x (separator ++ String.concat separator (y :: rest)) Hlen)
      as (c & r & E).
    rewrite E. rewrite <- E.
    destruct separator as [|d separator]; [discriminate|].
    simpl in Hd. unfold only_delims in Hd. simpl in Hd.
    apply andb_true_iff in Hd as [Hd Hsep].
    change (String d separator ++ String.concat (String d separator) (y :: rest))
      with (String d (separator ++ String.concat (String d separator) (y :: rest))).
    rewrite scan_token_delim by assumption.
    rewrite strtok_tokens_skip by exact Hsep.
    now rewrite IH.
Qed.

Lemma strtok_tokens_of_concat_witness :
  strtok_tokens " ," (String.concat ", " ["0"; "100"; "-40"]) = ["0"; "100"; "-40"].
Proof.
  apply (strtok_tokens_of_concat " ," ", " ["0"; "100"; "-40"]); reflexivity.
Defined.

(** * Parse, Process_array and main *)

Lemma append_empty_r (s : string) : s ++ EmptyString = s.
Proof. induction s as [|c s IH]; simpl; congruence. Qed.

Lemma append_assoc (a b c : string) : (a ++ b) ++ c = a ++ (b ++ c).
Proof. induction a as [|x a IH]; simpl; congruence. Qed.

Section ProgramFacts.

Variable strtod : string -> float * nat * Z.
Variable ERANGE : Z.

(** [Parse] writes nothing, and either returns a value or stops. *)
Lemma Parse_cases (s : string) :
  (exists v, Parse strtod ERANGE s = done v) \/
  (exists e, Parse strtod ERANGE s = stop e).
Proof.
  unfold Parse. destruct (strtod s) as [[v e] errno].
  destruct (errno =? ERANGE)%Z; [right; eauto|].
  destruct (negb (errno =? 0)%Z || (e =? 0)%nat || (e <? String.length s)%nat)%bool;
    [right; eauto|].
  destruct (is_infinity v || is_nan v)%bool; [right; eauto | left; eauto].
Qed.

(** X8. Whatever [strtod] does, a value that [Parse] lets through is
    finite, and it is the value [strtod] returned with [errno] left at
    zero after reading at least one character and at least up to the end
    of the string. *)
Theorem Parse_accepts_only_finite (s : string) (v : float) :
  Parse strtod ERANGE s = done v ->
  finite v = true /\
  strtod s = (v, snd (fst (strtod s)), 0%Z) /\
  (0 < snd (fst (strtod s)))%nat /\
  (String.length s <= snd (fst (strtod s)))%nat.
Proof.
  unfold Parse, finite. destruct (strtod s) as [[v0 e] errno]. simpl.
  destruct (errno =? ERANGE)%Z;
    [intros H; apply (f_equal (fun m => snd (m EmptyString))) in H; discriminate|].
  destruct (errno =? 0)%Z eqn:E0; simpl;
    [|intros H; apply (f_equal (fun m => snd (m EmptyString))) in H; discriminate].
  destruct (e =? 0)%nat eqn:Ee; simpl;
    [intros H; apply (f_equal (fun m => snd (m EmptyString))) in H; discriminate|].
  destruct (e <? String.length s)%nat eqn:El;
    [intros H; apply (f_equal (fun m => snd (m EmptyString))) in H; discriminate|].
  destruct (is_infinity v0) eqn:Ei; simpl;
    [intros H; apply (f_equal (fun m => snd (m EmptyString))) in H; discriminate|].
  destruct (is_nan v0) eqn:En;
    [intros H; apply (f_equal (fun m => snd (m EmptyString))) in H; discriminate|].
  intros H. apply (f_equal (fun m => snd (m EmptyString))) in H.
  injection H as <-.
  apply Z.eqb_eq in E0. apply Nat.eqb_neq in Ee. apply Nat.ltb_ge in El.
  subst errno. rewrite En, Ei. repeat split; try reflexivity; lia.
Qed.

End ProgramFacts.

Lemma Parse_accepts_only_finite_witness :
  finite (-40)%float = true /\
  strtod_integers "-40" = ((-40)%float, snd (fst (strtod_integers "-40")), 0%Z) /\
  (0 < snd (fst (strtod_integers "-40")))%nat /\
  (String.length "-40" <= snd (fst (strtod_integers "-40")))%nat.
Proof.
  apply (Parse_accepts_only_finite strtod_integers 34%Z "-40" (-40)%float).
  reflexivity.
Defined.

(** ** Process_array *)

Section ArrayFacts.

Variable strtod : string -> float * nat * Z.
Variable ERANGE : Z.
Variables input_separator output_separator : option string.
Variables source target : string.

Local Abbreviation converts :=
  (text_converts Enhanced.Convert_temperature strtod ERANGE source target).
Local Abbreviation fails :=
  (text_fails Enhanced.Convert_temperature strtod ERANGE source target).
Local Abbreviation loop :=
  (Process_array_loop strtod ERANGE output_separator source target).

Lemma joined_results_cons (first : bool) (r : float) (rs : list float) (out : string) :
  ((out ++ (if first then EmptyString else separator_text output_separator))
     ++ Print_result r) ++ joined_results output_separator false rs
  = out ++ joined_results output_separator first (r :: rs).
Proof.
  unfold joined_results. destruct rs as [|r' rs].
  - cbn. rewrite append_empty_r. now rewrite !append_assoc.
  - cbn [map String.concat]. now rewrite !append_assoc.
Qed.

Lemma write_separator_text (first : bool) (out : string) :
  write_separator output_separator first out
  = (out ++ (if first then EmptyString else separator_text output_separator), Done tt).
Proof.
  unfold write_separator, separator_text.
  destruct output_separator, first; cbn; now rewrite ?append_empty_r.
Qed.

Lemma Process_array_loop_step (token : string) (tokens : list string)
  (r : float) (first : bool) (out : string) :
  (0 <? String.length token)%nat = true ->
  converts token r ->
  loop (token :: tokens) first out
  = loop tokens false
      ((out ++ (if first then EmptyString else separator_text output_separator))
         ++ Print_result r).
Proof.
  intros Hlen (v & HP & HC). cbn [Process_array_loop].
  rewrite Hlen. unfold and_then. rewrite HP. cbn. rewrite HC. cbn.
  rewrite write_separator_text. reflexivity.
Qed.

Lemma Process_array_loop_stop (token : string) (tokens : list string)
  (e : ProcessError) (first : bool) (out : string) :
  (0 <? String.length token)%nat = true ->
  fails token e ->
  loop (token :: tokens) first out = (out, Stop e).
Proof.
  intros Hlen H. cbn [Process_array_loop]. rewrite Hlen.
  unfold and_then. destruct H as [HP | (v & e' & HP & HC & ->)]; rewrite HP; cbn.
  - reflexivity.
  - rewrite HC. reflexivity.
Qed.

Lemma Process_array_loop_all (tokens : list string) (rs : list float)
  (first : bool) (out : string) :
  Forall2 converts tokens rs ->
  forallb (fun token => (0 <? String.length token)%nat) tokens = true ->
  loop tokens first out = (out ++ joined_results output_separator first rs, Done tt).
Proof.
  intros H. revert first out.
  induction H as [|token r tokens rs Hr _ IH]; intros first out Hlen.
  - cbn. now rewrite append_empty_r.
  - cbn in Hlen. apply andb_true_iff in Hlen as [Hl Hlen].
    rewrite (Process_array_loop_step token tokens r first out Hl Hr).
    rewrite (IH false _ Hlen). now rewrite joined_results_cons.
Qed.

Lemma Process_array_loop_prefix (good : list string) (rs : list float)
  (bad : string) (rest : list string) (e : ProcessError)
  (first : bool) (out : string) :
  Forall2 converts good rs ->
  fails bad e ->
  forallb (fun token => (0 <? String.length token)%nat) (good ++ bad :: rest) = true ->
  loop (good ++ bad :: rest)%list first out
  = (out ++ joined_results output_separator first rs, Stop e).
Proof.
  intros H Hbad. revert first out.
  induction H as [|token r tokens rs Hr _ IH]; intros first out Hlen.
  - cbn in Hlen. apply andb_true_iff in Hlen as [Hl _].
    cbn [app]. rewrite (Process_array_loop_stop bad rest e first out Hl Hbad).
    cbn. now rewrite append_empty_r.
  - cbn in Hlen. apply andb_true_iff in Hlen as [Hl Hlen].
    cbn [app].
    rewrite (Process_array_loop_step token (tokens ++ bad :: rest) r first out Hl Hr).
    rewrite (IH false _ Hlen). now rewrite joined_results_cons.
Qed.

(** X9. When every token of the input is accepted and converted,
    [Process_array] writes the results in the order of the tokens, puts
    the output separator between them when one was given and nothing
    when none was, and ends the line only when no output separator was
    given.  A separator of several characters splits the input at each of
    its characters. *)
Theorem Process_array_writes_results_in_order
  (input : string) (rs : list float) (out : string) :
  Forall2 converts (strtok_tokens (array_delims input_separator) input) rs ->
  Process_array strtod ERANGE input_separator output_separator
    input source target out
  = (out ++ String.concat (separator_text output_separator) (map Print_result rs)
         ++ array_end output_separator,
     Done tt).
Proof.
  intros H. unfold Process_array. fold (array_delims input_separator).
  unfold and_then.
  rewrite (Process_array_loop_all _ rs true out H)
    by apply strtok_tokens_nonempty.
  unfold joined_results, array_end, write, done.
  destruct output_separator; destruct rs; cbn [map String.concat separator_text];
    rewrite ?append_empty_r, ?append_assoc; cbn; rewrite ?append_empty_r; reflexivity.
Qed.

(** X10. [Process_array] stops at the first token that [Parse] or the
    conversion rejects: the results of the tokens before it have been
    written, the line is not ended, and the tokens after it are not
    looked at. *)
Theorem Process_array_stops_at_first_bad_token
  (input : string) (good : list string) (rs : list float)
  (bad : string) (rest : list string) (e : ProcessError) (out : string) :
  strtok_tokens (array_delims input_separator) input = (good ++ bad :: rest)%list ->
  Forall2 converts good rs ->
  fails bad e ->
  Process_array strtod ERANGE input_separator output_separator
    input source target out
  = (out ++ String.concat (separator_text output_separator) (map Print_result rs),
     Stop e).
Proof.
  intros Htok Hgood Hbad. unfold Process_array. fold (array_delims input_separator).
  unfold and_then.
  pose proof (strtok_tokens_nonempty (array_delims input_separator) input) as Hw.
  rewrite Htok in *.
  rewrite (Process_array_loop_prefix good rs bad rest e true out Hgood Hbad Hw).
  unfold joined_results. destruct rs; cbn; reflexivity.
Qed.

(** X11. On an input that is empty or made of delimiters only,
    [Process_array] finds no token, never calls [Parse], and writes just
    the end of line, or nothing when an output separator was given. *)
Theorem Process_array_blank_input (input : string) (out : string) :
  only_delims (array_delims input_separator) input = true ->
  strtok_tokens (array_delims input_separator) input = [] /\
  Process_array strtod ERANGE input_separator output_separator
    input source target out
  = (out ++ array_end output_separator, Done tt).
Proof.
  intros H.
  assert (T : strtok_tokens (array_delims input_separator) input = []).
  { rewrite <- (append_empty_r input), strtok_tokens_skip by exact H. reflexivity. }
  split; [exact T|].
  unfold Process_array. fold (array_delims input_separator). rewrite T.
  unfold array_end, and_then, write, done.
  destruct output_separator; cbn; now rewrite ?append_empty_r.
Qed.

End ArrayFacts.

Lemma Process_array_writes_results_in_order_witness :
  Process_array strtod_integers 34%Z None None "0 100 -40" "C" "F" EmptyString
  = (EmptyString
       ++ String.concat (separator_text None)
            (map Print_result [32%float; 212%float; (-40)%float])
       ++ array_end None,
     Done tt).
Proof.
  apply (Process_array_writes_results_in_order strtod_integers 34%Z None None
           "C" "F" "0 100 -40" [32%float; 212%float; (-40)%float] EmptyString).
  repeat (apply Forall2_cons; [eexists; split; reflexivity|]).
  apply Forall2_nil.
Defined.

Lemma Process_array_stops_at_first_bad_token_witness :
  Process_array strtod_integers 34%Z (Some ",") (Some "; ")
    "0,100,x,-40" "C" "F" EmptyString
  = (EmptyString
       ++ String.concat (separator_text (Some "; "))
            (map Print_result [32%float; 212%float]),
     Stop (InvalidNumber "x")).
Proof.
  apply (Process_array_stops_at_first_bad_token strtod_integers 34%Z
           (Some ",") (Some "; ") "C" "F" "0,100,x,-40"
           ["0"; "100"] [32%float; 212%float] "x" ["-40"]
           (InvalidNumber "x") EmptyString).
  - reflexivity.
  - repeat (apply Forall2_cons; [eexists; split; reflexivity|]).
    apply Forall2_nil.
  - left. reflexivity.
Defined.

Lemma Process_array_blank_input_witness :
  strtok_tokens (array_delims None) "   " = [] /\
  Process_array strtod_integers 34%Z None None "   " "C" "F" EmptyString
  = (EmptyString ++ array_end None, Done tt).
Proof.
  apply (Process_array_blank_input strtod_integers 34%Z None None "C" "F"
           "   " EmptyString).
  reflexivity.
Defined.

(** ** main *)

Section MainFacts.

Variable strtod : string -> float * nat * Z.
Variable ERANGE : Z.
Variables input_separator output_separator : option string.
Variables source target : string.
Hypothesis source_known : Get_type source <> UNKNOWN.
Hypothesis target_known : Get_type target <> UNKNOWN.

Lemma scales_pass_main_checks :
  (Is_valid_scale source =? 0)%Z = false /\ (Is_valid_scale target =? 0)%Z = false.
Proof.
  split; apply Z.eqb_neq; intros H; apply Is_valid_scale_zero_iff in H; contradiction.
Qed.

Lemma Fixed_converts_as_Enhanced (text : string) (r : float) :
  text_converts Enhanced.Convert_temperature strtod ERANGE source target text r ->
  text_converts Fixed.Convert_temperature strtod ERANGE source target text r.
Proof.
  intros (v & HP & HC). exists v. split; [exact HP|].
  now rewrite Convert_temperature_same_on_known_target.
Qed.

Lemma Fixed_main_args_all (args : list string) (rs : list float) (out : string) :
  Forall2 (text_converts Fixed.Convert_temperature strtod ERANGE source target)
          args rs ->
  Fixed_main_args strtod ERANGE source target args out
  = (out ++ result_lines rs, Done tt).
Proof.
  intros H. revert out. induction H as [|arg r args rs (v & HP & HC) _ IH]; intros out.
  - cbn. now rewrite append_empty_r.
  - cbn [Fixed_main_args]. unfold and_then at 1. unfold Fixed_main_value.
    unfold and_then at 1. rewrite HP. cbn. rewrite HC. cbn.
    rewrite IH. unfold result_lines. cbn [map String.concat].
    destruct (map (fun r0 => Print_result r0 ++ String newline EmptyString) rs) eqn:E.
    + cbn. now rewrite !append_empty_r.
    + rewrite append_assoc. reflexivity.
Qed.

Lemma Enhanced_main_args_all (args : list string) (rs : list float)
  (first : bool) (out : string) :
  Forall2 (text_converts Enhanced.Convert_temperature strtod ERANGE source target)
          args rs ->
  Enhanced_main_args strtod ERANGE input_separator output_separator false
    source target args first out
  = (out ++ joined_results output_separator first rs,
     Done (match args with [] => first | _ => false end)).
Proof.
  intros H. revert first out.
  induction H as [|arg r args rs (v & HP & HC) Hrest IH]; intros first out.
  - cbn. now rewrite append_empty_r.
  - cbn [Enhanced_main_args]. unfold and_then at 1. rewrite HP. cbn.
    rewrite HC. cbn. unfold and_then at 1. rewrite write_separator_text.
    unfold and_then at 1. cbn [write]. rewrite IH.
    rewrite joined_results_cons. destruct args; reflexivity.
Qed.

(** X12. Several values on the command line, all accepted and converted:
    gradus_fixed.c writes every result on a line of its own, while
    gradus_enhanced.c outside array mode writes them separated by the
    output separator and, when none was given, with nothing between
    them, followed by one end of line. *)
Theorem main_output_for_command_line_values
  (arg : string) (args : list string) (r : float) (rs : list float)
  (stdin out : string) :
  Forall2 (text_converts Enhanced.Convert_temperature strtod ERANGE source target)
          (arg :: args) (r :: rs) ->
  Fixed_main strtod ERANGE (Some source) (Some target) (arg :: args) stdin out
  = (out ++ result_lines (r :: rs), Done tt) /\
  Enhanced_main strtod ERANGE input_separator output_separator false
    (Some source) (Some target) (arg :: args) stdin out
  = (out ++ String.concat (separator_text output_separator)
              (map Print_result (r :: rs))
         ++ String newline EmptyString,
     Done tt).
Proof.
  intros H. destruct scales_pass_main_checks as [Hs Ht].
  unfold Fixed_main, Enhanced_main. rewrite Hs, Ht.
  unfold stop_when. split.
  - unfold and_then at 1 2. cbn [done]. apply Fixed_main_args_all.
    clear - H source_known target_known.
    induction H; constructor; auto using Fixed_converts_as_Enhanced.
  - unfold and_then at 1 2 3. cbn [done].
    rewrite (Enhanced_main_args_all (arg :: args) (r :: rs) true out H).
    unfold write. cbn [negb andb joined_results String.append].
    now rewrite !append_assoc.
Qed.

Lemma Fixed_line_as_Enhanced (line : string) (out : string) :
  Fixed_main_value strtod ERANGE source target line out
  = (let! v := Parse strtod ERANGE line in
     let! r := converted (Enhanced.Convert_temperature v source target) in
     write (Print_result r ++ String newline EmptyString))%process out.
Proof.
  unfold Fixed_main_value, and_then.
  destruct (Parse strtod ERANGE line out) as [out' [v|e]]; [|reflexivity].
  now rewrite Convert_temperature_same_on_known_target.
Qed.

Lemma main_lines_agree (lines : list string) (out : string) :
  Enhanced_main_lines strtod ERANGE input_separator output_separator false
    source target lines out
  = Fixed_main_lines strtod ERANGE source target lines out.
Proof.
  revert out. induction lines as [|line lines IH]; intros out; [reflexivity|].
  cbn [Enhanced_main_lines Fixed_main_lines]. unfold and_then at 1 4.
  destruct (1 <? String.length line)%nat.
  - rewrite Fixed_line_as_Enhanced.
    match goal with |- match ?m with _ => _ end = _ => destruct m as [out' [[]|e]] end;
      [apply IH | reflexivity].
  - cbn. apply IH.
Qed.

End MainFacts.

(** X13. Reading values from standard input outside array mode,
    gradus_enhanced.c behaves as gradus_fixed.c does: for every input
    stream, every pair of scale arguments, given or missing, valid or not,
    and every setting of the separators, both write the same text and end
    in the same way. *)
Theorem main_on_stdin_agree
  (strtod : string -> float * nat * Z) (ERANGE : Z)
  (input_separator output_separator : option string)
  (source_scale target_scale : option string) (stdin out : string) :
  Enhanced_main strtod ERANGE input_separator output_separator false
    source_scale target_scale [] stdin out
  = Fixed_main strtod ERANGE source_scale target_scale [] stdin out.
Proof.
  unfold Enhanced_main, Fixed_main.
  destruct source_scale as [source|]; [|reflexivity].
  destruct target_scale as [target|]; [|reflexivity].
  unfold stop_when, and_then.
  destruct (Is_valid_scale source =? 0)%Z eqn:Es; [reflexivity|].
  destruct (Is_valid_scale target =? 0)%Z eqn:Et; [reflexivity|].
  cbn [done]. apply main_lines_agree.
  intros H. apply Is_valid_scale_zero_iff in H. rewrite H in Et. discriminate.
Qed.

Lemma main_output_for_command_line_values_witness :
  Fixed_main strtod_integers 34%Z (Some "C") (Some "F")
    ["0"; "100"; "-40"] EmptyString EmptyString
  = (EmptyString ++ result_lines [32%float; 212%float; (-40)%float], Done tt) /\
  Enhanced_main strtod_integers 34%Z None None false (Some "C") (Some "F")
    ["0"; "100"; "-40"] EmptyString EmptyString
  = (EmptyString
       ++ String.concat (separator_text None)
            (map Print_result [32%float; 212%float; (-40)%float])
       ++ String newline EmptyString,
     Done tt).
Proof.
  apply (main_output_for_command_line_values strtod_integers 34%Z None None
           "C" "F").
  - vm_compute. discriminate.
  - vm_compute. discriminate.
  - repeat (apply Forall2_cons; [eexists; split; reflexivity|]).
    apply Forall2_nil.
Defined.

(** ** Lines of standard input *)

Lemma getlines_app (body rest line : string) :
  body <> EmptyString -> complete_lines body = true ->
  getlines line (body ++ rest) = (getlines line body ++ getlines EmptyString rest)%list.
Proof.
  revert line. induction body as [|c body IH]; intros line Hne Hc; [congruence|].
  destruct body as [|c' body].
  - unfold complete_lines in Hc. cbn in Hc. cbn. rewrite Hc. reflexivity.
  - assert (Hc' : complete_lines (String c' body) = true) by exact Hc.
    assert (Hne' : String c' body <> EmptyString) by discriminate.
    remember (String c' body) as body' eqn:E. clear E.
    cbn [String.append getlines].
    destruct (Ascii.eqb c newline).
    + cbn [app]. f_equal. now apply IH.
    + now apply IH.
Qed.

Lemma getlines_single_character (c : ascii) :
  exists line, getlines EmptyString (String c EmptyString) = [line] /\
               String.length line = 1%nat.
Proof.
  cbn. destruct (Ascii.eqb c newline); eexists; split; reflexivity.
Qed.

Section LineFacts.

Variable strtod : string -> float * nat * Z.
Variable ERANGE : Z.
Variables input_separator output_separator : option string.
Variable array_mode : bool.
Variables source target : string.

Lemma Fixed_main_lines_short_last (lines : list string) (line out : string) :
  String.length line = 1%nat ->
  Fixed_main_lines strtod ERANGE source target (lines ++ [line]) out
  = Fixed_main_lines strtod ERANGE source target lines out.
Proof.
  intros Hlen. revert out. induction lines as [|l lines IH]; intros out.
  - cbn. rewrite Hlen. reflexivity.
  - cbn [app Fixed_main_lines]. unfold and_then at 1 2.
    match goal with |- match ?m with _ => _ end = _ => destruct m as [out' [[]|e]] end;
      [apply IH | reflexivity].
Qed.

Lemma Enhanced_main_lines_short_last (lines : list string) (line out : string) :
  String.length line = 1%nat ->
  Enhanced_main_lines strtod ERANGE input_separator output_separator array_mode
    source target (lines ++ [line]) out
  = Enhanced_main_lines strtod ERANGE input_separator output_separator array_mode
      source target lines out.
Proof.
  intros Hlen. revert out. induction lines as [|l lines IH]; intros out.
  - cbn. rewrite Hlen. reflexivity.
  - cbn [app Enhanced_main_lines]. unfold and_then at 1 4.
    match goal with |- match ?m with _ => _ end = _ => destruct m as [out' [[]|e]] end;
      [apply IH | reflexivity].
Qed.

End LineFacts.

(** X14. A last line of standard input that consists of a single
    character and is not ended by a newline is ignored by both programs,
    in every mode: the process writes and ends exactly as if the
    character were not there, and the character is never handed to
    [Parse]. *)
Theorem single_character_last_line_ignored
  (strtod : string -> float * nat * Z) (ERANGE : Z)
  (input_separator output_separator : option string) (array_mode : bool)
  (source_scale target_scale : option string)
  (body : string) (c : ascii) (out : string) :
  complete_lines body = true ->
  Fixed_main strtod ERANGE source_scale target_scale []
    (body ++ String c EmptyString) out
  = Fixed_main strtod ERANGE source_scale target_scale [] body out /\
  Enhanced_main strtod ERANGE input_separator output_separator array_mode
    source_scale target_scale [] (body ++ String c EmptyString) out
  = Enhanced_main strtod ERANGE input_separator output_separator array_mode
      source_scale target_scale [] body out.
Proof.
  intros Hc.
  destruct (getlines_single_character c) as (line & Hline & Hlen).
  assert (L : getlines EmptyString (body ++ String c EmptyString)
              = (getlines EmptyString body ++ [line])%list).
  { destruct body as [|b body]; [exact Hline|].
    rewrite getlines_app by (discriminate || exact Hc). now rewrite Hline. }
  unfold Fixed_main, Enhanced_main.
  destruct source_scale as [source|]; [|split; reflexivity].
  destruct target_scale as [target|]; [|split; reflexivity].
  unfold stop_when, and_then.
  destruct (Is_valid_scale source =? 0)%Z; [split; reflexivity|].
  destruct (Is_valid_scale target =? 0)%Z; [split; reflexivity|].
  cbn [done]. rewrite L. split.
  - now apply Fixed_main_lines_short_last.
  - now apply Enhanced_main_lines_short_last.
Qed.

Lemma single_character_last_line_ignored_witness :
  Fixed_main strtod_integers 34%Z (Some "C") (Some "F") []
    (String "5" (String newline EmptyString) ++ String "7" EmptyString) EmptyString
  = Fixed_main strtod_integers 34%Z (Some "C") (Some "F") []
      (String "5" (String newline EmptyString)) EmptyString /\
  Enhanced_main strtod_integers 34%Z None None true (Some "C") (Some "F") []
    (String "5" (String newline EmptyString) ++ String "7" EmptyString) EmptyString
  = Enhanced_main strtod_integers 34%Z None None true (Some "C") (Some "F") []
      (String "5" (String newline EmptyString)) EmptyString.
Proof.
  apply (single_character_last_line_ignored strtod_integers 34%Z None None true
           (Some "C") (Some "F") (String "5" (String newline EmptyString)) "7"%char
           EmptyString).
  reflexivity.
Defined.

(** * The "-0.00" rule on every double *)

Lemma round_half_even_positive (n d : Z) :
  (0 < d)%Z -> (d < 2 * n)%Z -> (1 <= round_half_even n d)%Z.
Proof.
  intros Hd Hn. unfold round_half_even.
  assert (Hq : (0 <= n / d)%Z) by (apply Z.div_pos; lia).
  destruct (Z.eq_dec (n / d) 0) as [E|E].
  - rewrite E. apply Z.div_small_iff in E; [|lia].
    rewrite Z.mod_small by lia.
    destruct (Z.compare_spec (2 * n) d); lia.
  - destruct (2 * (n mod d) ?= d)%Z; [destruct (Z.even (n / d))| |]; lia.
Qed.

Lemma digits2_pos_lower (m : positive) :
  (2 ^ (Z.pos (digits2_pos m) - 1) <= Z.pos m)%Z.
Proof.
  induction m as [m IH|m IH|]; cbn [digits2_pos].
  - rewrite Pos2Z.inj_succ.
    replace (Z.succ (Z.pos (digits2_pos m)) - 1)%Z
      with (Z.succ (Z.pos (digits2_pos m) - 1))%Z by lia.
    rewrite Z.pow_succ_r by lia. lia.
  - rewrite Pos2Z.inj_succ.
    replace (Z.succ (Z.pos (digits2_pos m)) - 1)%Z
      with (Z.succ (Z.pos (digits2_pos m) - 1))%Z by lia.
    rewrite Z.pow_succ_r by lia. lia.
  - cbn. lia.
Qed.

(** A double whose magnitude is not below the double [0.005] is at least
    half a hundredth above zero, and is printed with a digit that is not
    zero. *)
Lemma hundredths_positive (m : positive) (e : Z) :
  bounded prec emax m e = true ->
  SFltb (S754_finite false m e) (Prim2SF 0.005) = false ->
  (1 <= hundredths m e)%Z.
Proof.
  intros Hb Hlt. unfold hundredths.
  destruct (0 <=? e)%Z eqn:He.
  - apply Z.leb_le in He.
    assert (1 <= 2 ^ e)%Z by (apply Z.pow_pos_nonneg with (a := 2%Z) in He; lia).
    nia.
  - apply Z.leb_gt in He.
    apply round_half_even_positive; [apply Z.pow_pos_nonneg; lia|].
    change (Prim2SF 0.005) with (S754_finite false 5764607523034235 (-60)) in Hlt.
    unfold SFltb, SFcompare in Hlt.
    destruct (Z.compare_spec e (-60)) as [E|E|E]; try discriminate.
    + subst e. rewrite Pos.compare_cont_spec in Hlt. cbn [Pos.switch_Eq] in Hlt.
      destruct (Pos.compare_spec m 5764607523034235) as [E|E|E]; try discriminate;
        change (2 ^ (- -60))%Z with 1152921504606846976%Z; lia.
    + unfold bounded, canonical_mantissa, fexp, emin in Hb.
      apply andb_true_iff in Hb as [Hc _]. apply Z.eqb_eq in Hc.
      change prec with 53%Z in Hc. change emax with 1024%Z in Hc.
      assert (D : Z.pos (digits2_pos m) = 53%Z) by lia.
      pose proof (digits2_pos_lower m) as L. rewrite D in L.
      change (2 ^ (53 - 1))%Z with 4503599627370496%Z in L.
      assert (P : (2 ^ (- e) <= 2 ^ 59)%Z) by (apply Z.pow_le_mono_r; lia).
      change (2 ^ 59)%Z with 576460752303423488%Z in P. lia.
Qed.

Lemma decimal_before_point (k : Z) (tail : string) :
  (0 <= k)%Z ->
  decimal k ++ "." ++ tail = "0.00" -> k = 0%Z /\ tail = "00".
Proof.
  intros Hk. unfold decimal.
  pose proof (DecimalN.Unsigned.of_to (Z.to_N k)) as R.
  destruct (N.to_uint (Z.to_N k)) as [|d|d|d|d|d|d|d|d|d|d]; cbn;
    try discriminate.
  - intros H. injection H as <-. cbn in R. split; [lia | reflexivity].
  - destruct d; cbn; try discriminate.
    intros H. injection H as <-. cbn in R. split; [lia | reflexivity].
Qed.

Lemma two_digits_zero (n : Z) :
  (0 <= n)%Z -> two_digits n = "00" -> n = 0%Z.
Proof.
  intros Hn. unfold two_digits, decimal.
  pose proof (DecimalN.Unsigned.of_to (Z.to_N n)) as R.
  destruct (n <? 10)%Z;
    destruct (N.to_uint (Z.to_N n)) as [|d|d|d|d|d|d|d|d|d|d]; cbn;
    try discriminate.
  - intros _. cbn in R. lia.
  - destruct d; cbn; try discriminate. intros _. cbn in R. lia.
  - destruct d as [|d|d|d|d|d|d|d|d|d|d]; cbn; try discriminate.
    destruct d; cbn; try discriminate. intros _. cbn in R. lia.
Qed.

Lemma decimal_first_character (k : Z) (rest : string) :
  decimal k ++ rest <> String "-" (String "0" (String "." (String "0" (String "0" "")))).
Proof.
  unfold decimal.
  destruct (N.to_uint (Z.to_N k)) as [|d|d|d|d|d|d|d|d|d|d]; cbn; discriminate.
Qed.

Lemma printf_2f_finite_not_zero (s : bool) (m : positive) (e : Z) :
  (1 <= hundredths m e)%Z ->
  sign_text s ++ decimal (hundredths m e / 100) ++ "."
    ++ two_digits (hundredths m e mod 100) <> "-0.00".
Proof.
  intros Hh. set (h := hundredths m e) in *.
  assert (Hq : (0 <= h / 100)%Z) by (apply Z.div_pos; lia).
  assert (Hr : (0 <= h mod 100 < 100)%Z) by (apply Z.mod_pos_bound; lia).
  destruct s; cbn [sign_text String.append].
  - intros H. injection H as H.
    apply decimal_before_point in H as [Hk Ht]; [|exact Hq].
    apply two_digits_zero in Ht; [|lia].
    pose proof (Z.div_mod h 100). lia.
  - apply decimal_first_character.
Qed.

(** X15. The rule keeps "-0.00" off the output for every double but one:
    [Print_result] writes "-0.00" exactly for the IEEE negative zero,
    which the test [r != 0.0] lets through.  Every other value whose
    magnitude is not below the double 0.005 rounds to a hundredth that is
    not zero. *)
Theorem Print_result_minus_zero_iff (r : float) :
  Print_result r = "-0.00" <-> r = (-0.0)%float.
Proof.
  split.
  - intros H. rewrite <- (SF2Prim_Prim2SF r).
    pose proof (Prim2SF_valid r) as V.
    assert (A : (abs r <? 0.005)%float
                = SFltb (SFabs (Prim2SF r)) (Prim2SF 0.005))
      by (rewrite ltb_spec, abs_spec; reflexivity).
    assert (B : (r =? 0.0)%float = SFeqb (Prim2SF r) (S754_zero false))
      by (rewrite eqb_spec; reflexivity).
    unfold Print_result, Avoid_negative_zero in H. rewrite A, B in H.
    destruct (Prim2SF r) as [s| s | |s m e] eqn:E.
    + cbn in H. unfold printf_2f in H. rewrite E in H.
      destruct s; [reflexivity | discriminate].
    + cbn in H. unfold printf_2f in H. rewrite E in H.
      destruct s; discriminate.
    + cbn in H. unfold printf_2f in H. rewrite E in H. discriminate.
    + exfalso. cbn [SFabs] in H.
      replace (SFeqb (S754_finite s m e) (S754_zero false)) with false in H
        by (destruct s; reflexivity).
      destruct (SFltb (S754_finite false m e) (Prim2SF 0.005)) eqn:L.
      * cbn in H. discriminate.
      * cbn [andb] in H. unfold printf_2f in H. rewrite E in H.
        revert H. apply printf_2f_finite_not_zero.
        now apply hundredths_positive.
  - intros ->. reflexivity.
Qed.

(** * No result is NaN *)

Lemma iter_pos_invariant {A : Type} (P : A -> Prop) (f : A -> A) :
  (forall x, P x -> P (f x)) ->
  forall (n : positive) (x : A), P x -> P (iter_pos f n x).
Proof.
  intros Hf. induction n as [n IH|n IH|]; intros x Hx; cbn; auto.
Qed.

Lemma shr_1_nonneg (mrs : shr_record) :
  (0 <= shr_m mrs)%Z -> (0 <= shr_m (shr_1 mrs))%Z.
Proof.
  destruct mrs as [m r s]. cbn.
  destruct m as [|p|p]; [| destruct p | destruct p]; cbn; lia.
Qed.

Lemma shr_fexp_nonneg (m e : Z) (l : location) :
  (0 <= m)%Z -> (0 <= shr_m (fst (shr_fexp prec emax m e l)))%Z.
Proof.
  intros Hm. unfold shr_fexp, shr.
  assert (H0 : (0 <= shr_m (shr_record_of_loc m l))%Z)
    by (destruct l as [|[]]; exact Hm).
  destruct (fexp prec emax (Zdigits2 m + e) - e)%Z; cbn [fst]; try exact H0.
  apply (iter_pos_invariant (fun mrs => (0 <= shr_m mrs)%Z)); [|exact H0].
  exact shr_1_nonneg.
Qed.

Lemma round_nearest_even_nonneg (m : Z) (l : location) :
  (0 <= m)%Z -> (0 <= round_nearest_even m l)%Z.
Proof.
  intros Hm. destruct l as [|[]]; cbn; try destruct (Z.even m); lia.
Qed.

Lemma binary_round_aux_not_nan (sx : bool) (mx ex : Z) (lx : location) :
  (0 <= mx)%Z -> binary_round_aux prec emax sx mx ex lx <> S754_nan.
Proof.
  intros Hm. unfold binary_round_aux.
  pose proof (shr_fexp_nonneg mx ex lx Hm) as H1.
  destruct (shr_fexp prec emax mx ex lx) as [mrs' e']. cbn [fst] in H1.
  pose proof (shr_fexp_nonneg _ e' loc_Exact
                (round_nearest_even_nonneg _ (loc_of_shr_record mrs') H1)) as H2.
  destruct (shr_fexp prec emax
              (round_nearest_even (shr_m mrs') (loc_of_shr_record mrs')) e' loc_Exact)
    as [mrs'' e''].
  cbn [fst] in H2. destruct (shr_m mrs'') as [|m|m]; [discriminate| |lia].
  destruct (e'' <=? emax - prec)%Z; discriminate.
Qed.

Lemma binary_normalize_not_nan (m e : Z) (szero : bool) :
  binary_normalize prec emax m e szero <> S754_nan.
Proof.
  destruct m as [|m|m]; cbn [binary_normalize]; [discriminate| |];
    unfold binary_round;
    destruct (shl_align m e (fexp prec emax (Z.pos (digits2_pos m) + e))) as [mz ez];
    apply binary_round_aux_not_nan; lia.
Qed.

Lemma SFmul_not_nan (x y : spec_float) :
  x <> S754_nan -> SFfinite y = true -> SF64mul x y <> S754_nan.
Proof.
  intros Hx Hy. destruct y as [| | |sy my ey]; try discriminate.
  destruct x as [sx|sx| |sx mx ex]; cbn; try discriminate; try congruence.
  apply binary_round_aux_not_nan. lia.
Qed.

Lemma SFdiv_not_nan (x y : spec_float) :
  x <> S754_nan -> SFfinite y = true -> SF64div x y <> S754_nan.
Proof.
  intros Hx Hy. destruct y as [| | |sy my ey]; try discriminate.
  destruct x as [sx|sx| |sx mx ex]; cbn [SF64div SFdiv]; try discriminate; try congruence.
  unfold SFdiv_core_binary.
  set (s := (ex - ey - _)%Z).
  set (m' := match s with Z0 => Z.pos mx | Z.pos _ => Z.shiftl (Z.pos mx) s | Z.neg _ => 0%Z end).
  assert (Hm' : (0 <= m')%Z).
  { unfold m'. destruct s; try lia. apply Z.shiftl_nonneg. lia. }
  pose proof (Z_div_mod m' (Z.pos my) eq_refl) as D.
  destruct (Z.div_eucl m' (Z.pos my)) as [q r].
  apply binary_round_aux_not_nan. nia.
Qed.

Lemma SFadd_not_nan (x y : spec_float) :
  x <> S754_nan -> y <> S754_nan ->
  SFinfinite x && SFinfinite y = false ->
  SF64add x y <> S754_nan.
Proof.
  intros Hx Hy Hi.
  destruct x as [sx|sx| |sx mx ex]; destruct y as [sy|sy| |sy my ey];
    cbn [SF64add SFadd]; try discriminate; try congruence;
    try (destruct sx, sy; discriminate).
  apply binary_normalize_not_nan.
Qed.

Lemma SFsub_not_nan (x y : spec_float) :
  x <> S754_nan -> y <> S754_nan ->
  SFinfinite x && SFinfinite y = false ->
  SF64sub x y <> S754_nan.
Proof.
  intros Hx Hy Hi.
  destruct x as [sx|sx| |sx mx ex]; destruct y as [sy|sy| |sy my ey];
    cbn [SF64sub SFsub]; try discriminate; try congruence;
    try (destruct sx, sy; discriminate).
  apply binary_normalize_not_nan.
Qed.

Lemma SFeqb_same (x : spec_float) : x <> S754_nan -> SFeqb x x = true.
Proof.
  intros Hx. destruct x as [s|s| |s m e]; try congruence; unfold SFeqb, SFcompare.
  - reflexivity.
  - destruct s; reflexivity.
  - rewrite Z.compare_refl, Pos.compare_cont_refl. destruct s; reflexivity.
Qed.

Lemma is_nan_false_iff (r : float) : is_nan r = false <-> Prim2SF r <> S754_nan.
Proof.
  unfold is_nan. rewrite eqb_spec. split.
  - intros H E. rewrite E in H. discriminate.
  - intros H. now rewrite SFeqb_same.
Qed.

Lemma finite_not_nan (c : float) : SFfinite (Prim2SF c) = true -> Prim2SF c <> S754_nan.
Proof. intros H E. rewrite E in H. discriminate. Qed.

Lemma finite_not_infinite (c : float) (x : spec_float) :
  SFfinite (Prim2SF c) = true ->
  SFinfinite x && SFinfinite (Prim2SF c) = false /\
  SFinfinite (Prim2SF c) && SFinfinite x = false.
Proof.
  destruct (Prim2SF c); try discriminate. intros _. cbn. now rewrite andb_false_r.
Qed.

Lemma mul_not_nan (x c : float) :
  is_nan x = false -> SFfinite (Prim2SF c) = true -> is_nan (x * c) = false.
Proof.
  rewrite !is_nan_false_iff, mul_spec. intros Hx Hc. now apply SFmul_not_nan.
Qed.

Lemma div_not_nan (x c : float) :
  is_nan x = false -> SFfinite (Prim2SF c) = true -> is_nan (x / c) = false.
Proof.
  rewrite !is_nan_false_iff, div_spec. intros Hx Hc. now apply SFdiv_not_nan.
Qed.

Lemma add_not_nan (x c : float) :
  is_nan x = false -> SFfinite (Prim2SF c) = true -> is_nan (x + c) = false.
Proof.
  rewrite !is_nan_false_iff, add_spec. intros Hx Hc.
  apply SFadd_not_nan; auto using finite_not_nan.
  exact (proj1 (finite_not_infinite c _ Hc)).
Qed.

Lemma sub_not_nan (x c : float) :
  is_nan x = false -> SFfinite (Prim2SF c) = true -> is_nan (x - c) = false.
Proof.
  rewrite !is_nan_false_iff, sub_spec. intros Hx Hc.
  apply SFsub_not_nan; auto using finite_not_nan.
  exact (proj1 (finite_not_infinite c _ Hc)).
Qed.

Lemma sub_from_not_nan (c x : float) :
  is_nan x = false -> SFfinite (Prim2SF c) = true -> is_nan (c - x) = false.
Proof.
  rewrite !is_nan_false_iff, sub_spec. intros Hx Hc.
  apply SFsub_not_nan; auto using finite_not_nan.
  exact (proj2 (finite_not_infinite c _ Hc)).
Qed.

Ltac not_nan :=
  repeat first
    [ assumption
    | reflexivity
    | apply mul_not_nan
    | apply div_not_nan
    | apply add_not_nan
    | apply sub_from_not_nan; [ | reflexivity ]
    | apply sub_not_nan ].

Lemma to_Celsius_not_nan (value : float) :
  is_nan value = false ->
  is_nan (Fahrenheit_to_Celsius value) = false /\
  is_nan (Kelvin_to_Celsius value) = false /\
  is_nan (Rankine_to_Celsius value) = false /\
  is_nan (Reaumur_to_Celsius value) = false /\
  is_nan (Delisle_to_Celsius value) = false /\
  is_nan (Newton_to_Celsius value) = false /\
  is_nan (Romer_to_Celsius value) = false.
Proof.
  intros H.
  unfold Fahrenheit_to_Celsius, Kelvin_to_Celsius, Rankine_to_Celsius,
    Reaumur_to_Celsius, Delisle_to_Celsius, Newton_to_Celsius, Romer_to_Celsius.
  repeat apply conj; not_nan.
Qed.

Lemma from_Celsius_not_nan (celsius : float) :
  is_nan celsius = false ->
  is_nan (Celsius_to_Fahrenheit celsius) = false /\
  is_nan (Celsius_to_Kelvin celsius) = false /\
  is_nan (Celsius_to_Rankine celsius) = false /\
  is_nan (Celsius_to_Reaumur celsius) = false /\
  is_nan (Celsius_to_Delisle celsius) = false /\
  is_nan (Celsius_to_Newton celsius) = false /\
  is_nan (Celsius_to_Romer celsius) = false.
Proof.
  intros H.
  unfold Celsius_to_Fahrenheit, Celsius_to_Kelvin, Celsius_to_Rankine,
    Celsius_to_Reaumur, Celsius_to_Delisle, Celsius_to_Newton, Celsius_to_Romer.
  repeat apply conj; not_nan.
Qed.

(** X16. A value that is not NaN is never converted to NaN, by either
    program and between any two scales: every step of the two transforms
    adds, subtracts, multiplies or divides by a finite constant that is
    not zero.  The values that [Parse] lets through are finite, so no
    conversion started from [main] yields NaN; an infinity can still come
    out of a finite value. *)
Theorem Convert_temperature_never_NaN
  (value : float) (source target : string) (r : float) :
  is_nan value = false ->
  (Fixed.Convert_temperature value source target = Ok r -> is_nan r = false) /\
  (Enhanced.Convert_temperature value source target = Ok r -> is_nan r = false).
Proof.
  intros Hv.
  destruct (to_Celsius_not_nan value Hv) as (F & K & R & Re & De & N & Ro).
  unfold Fixed.Convert_temperature, Enhanced.Convert_temperature.
  split;
    destruct (Get_type source); simpl; try discriminate;
    try (destruct (value <? 0)%float; simpl; try discriminate);
    destruct (Get_type target); simpl; try discriminate;
    intros H; injection H as <-;
    match goal with
    | |- is_nan (?f ?c) = false =>
        first [ exact Hv | assumption
              | let H := fresh in
                assert (H : is_nan c = false) by assumption;
                destruct (from_Celsius_not_nan c H) as (? & ? & ? & ? & ? & ? & ?);
                assumption ]
    | |- _ => assumption
    end.
Qed.

Lemma Convert_temperature_never_NaN_witness :
  is_nan infinity = false /\
  Enhanced.Convert_temperature 1e308%float "N" "C" = Ok infinity.
Proof.
  split; [|reflexivity].
  apply (proj2 (Convert_temperature_never_NaN 1e308%float "N" "C" infinity eq_refl)).
  reflexivity.
Defined.

(** X17. The IEEE negative zero does come out of [main]: for every
    spelling of Celsius, Reaumur and Newton as source and as target, the
    value -0.0 is converted to -0.0 and written as "-0.00" by both
    programs. *)
Theorem negative_zero_is_printed (source target : string) :
  Get_type source = CELSIUS \/ Get_type source = REAUMUR
    \/ Get_type source = NEWTON ->
  Get_type target = CELSIUS \/ Get_type target = REAUMUR
    \/ Get_type target = NEWTON ->
  Fixed.Convert_temperature (-0.0)%float source target = Ok (-0.0)%float /\
  Enhanced.Convert_temperature (-0.0)%float source target = Ok (-0.0)%float /\
  Fixed.main_convert source target (-0.0)%float = Ok "-0.00" /\
  Enhanced.main_convert source target (-0.0)%float = Ok "-0.00".
Proof.
  intros Hs Ht.
  assert (Ks : Get_type source <> UNKNOWN)
    by (destruct Hs as [E|[E|E]]; rewrite E; discriminate).
  assert (Kt : Get_type target <> UNKNOWN)
    by (destruct Ht as [E|[E|E]]; rewrite E; discriminate).
  assert (C : Fixed.Convert_temperature (-0.0)%float source target = Ok (-0.0)%float /\
              Enhanced.Convert_temperature (-0.0)%float source target = Ok (-0.0)%float).
  { unfold Fixed.Convert_temperature, Enhanced.Convert_temperature.
    destruct Hs as [Es|[Es|Es]]; destruct Ht as [Et|[Et|Et]];
      rewrite Es, Et; split; reflexivity. }
  destruct C as [CF CE]. repeat apply conj; try assumption.
  - rewrite (proj1 (main_convert_on_valid_input source target _ Ks Kt)), CF.
    reflexivity.
  - rewrite (proj2 (main_convert_on_valid_input source target _ Ks Kt)), CE.
    reflexivity.
Qed.

Lemma negative_zero_is_printed_witness :
  Fixed.Convert_temperature (-0.0)%float "c" "Re" = Ok (-0.0)%float /\
  Enhanced.Convert_temperature (-0.0)%float "c" "Re" = Ok (-0.0)%float /\
  Fixed.main_convert "c" "Re" (-0.0)%float = Ok "-0.00" /\
  Enhanced.main_convert "c" "Re" (-0.0)%float = Ok "-0.00".
Proof.
  apply (negative_zero_is_printed "c" "Re").
  - left. reflexivity.
  - right. left. reflexivity.
Defined.

(** * More on the transforms in exact arithmetic *)

Module IdealMore.

Import Ideal.
Local Open Scope Q_scope.






End IdealMore.

(** On the programs the second step can stop where the direct call
    returns: -300 Celsius is -26.85 Kelvin, which the guard refuses as a
    source. *)
Lemma by_way_of_Kelvin_stops_at_guard :
  Enhanced.Convert_temperature (-300)%float "C" "K"
    = Ok (-26.850000000000023)%float /\
  Enhanced.Convert_temperature (-26.850000000000023)%float "K" "F"
    = Exit (NegativeAbsoluteTemperature "K" (-26.850000000000023)%float) /\
  Enhanced.Convert_temperature (-300)%float "C" "F" = Ok (-508)%float /\
  Fixed.Convert_temperature (-300)%float "C" "K"
    = Ok (-26.850000000000023)%float /\
  Fixed.Convert_temperature (-26.850000000000023)%float "K" "F"
    = Exit (NegativeAbsoluteTemperature "K" (-26.850000000000023)%float) /\
  Fixed.Convert_temperature (-300)%float "C" "F" = Ok (-508)%float.
Proof.
  repeat apply conj; reflexivity.
Qed.

(** * The tables: properties *)

(** X20. The loop of [Print_temperature_table] in gradus_fixed.c is
    controlled by the double [c]: whatever bound beyond 13 is put on the
    number of rounds, it ends by its own test after exactly 13 rows; the
    first column counts -20, -10, ..., 100 without drift, and the
    Fahrenheit, Kelvin and Rankine columns are those of the 13 points of
    [Print_temperature_graph] in gradus_enhanced.c. *)
Theorem Fixed_table_rows_fixed (extra : nat) :
  Fixed_table_rows (14 + extra) = Fixed_table_rows 14 /\
  List.length (Fixed_table_rows (14 + extra)) = 13%nat /\
  map (fun row => fst (fst (fst row))) (Fixed_table_rows (14 + extra))
  = [-20; -10; 0; 10; 20; 30; 40; 50; 60; 70; 80; 90; 100]%Z /\
  map (fun row => (snd (fst (fst row)), snd (fst row), snd row))
      (Fixed_table_rows (14 + extra))
  = map (fun row => (snd (fst (fst row)), snd (fst row), snd row)) graph_rows.
Proof.
  assert (E : Fixed_table_rows (14 + extra) = Fixed_table_rows 14).
  { reflexivity. }
  rewrite E. repeat split; reflexivity.
Qed.

(** X21. In [Print_temperature_table] of gradus_enhanced.c the counter
    [i] and the temperature [c] stay in step: whatever bound beyond 15 is
    put on the number of rounds, the loop writes 15 rows; the temperature
    of row number [n] is the double [10 * (n - 4)] exactly, from -40 to
    100, and the other four columns are its transforms; the last 13 rows
    carry the Fahrenheit, Kelvin and Rankine values of the table of
    gradus_fixed.c. *)
Theorem Enhanced_table_rows_in_step (extra : nat) :
  Enhanced_table_rows (16 + extra) = Enhanced_table_rows 16 /\
  List.length (Enhanced_table_rows (16 + extra)) = 15%nat /\
  map (fun row => fst (fst (fst (fst row)))) (Enhanced_table_rows (16 + extra))
  = map (fun n => float_of_small_Z (10 * (Z.of_nat n - 4))) (seq 0 15) /\
  map (fun row => fst (fst (fst (fst row)))) (Enhanced_table_rows (16 + extra))
  = [(-40.0)%float; (-30.0)%float; (-20.0)%float; (-10.0)%float; 0.0%float;
     10.0%float; 20.0%float; 30.0%float; 40.0%float; 50.0%float; 60.0%float;
     70.0%float; 80.0%float; 90.0%float; 100.0%float] /\
  Enhanced_table_rows (16 + extra)
  = map (fun n =>
           let c := float_of_small_Z (10 * (Z.of_nat n - 4)) in
           (c, Celsius_to_Fahrenheit c, Celsius_to_Kelvin c,
            Celsius_to_Rankine c, Celsius_to_Reaumur c))
        (seq 0 15) /\
  map (fun row => double_to_int (fst (fst (fst (fst row)))))
      (Enhanced_table_rows (16 + extra))
  = map (fun n => (10 * (Z.of_nat n - 4))%Z) (seq 0 15) /\
  map (fun row => (snd (fst (fst (fst row))), snd (fst (fst row)), snd (fst row)))
      (skipn 2 (Enhanced_table_rows (16 + extra)))
  = map (fun row => (snd (fst (fst row)), snd (fst row), snd row))
      (Fixed_table_rows 14).
Proof.
  assert (E : Enhanced_table_rows (16 + extra) = Enhanced_table_rows 16).
  { reflexivity. }
  rewrite E. repeat split; reflexivity.
Qed.

(** * A rejected value on the command line *)

Section RejectedValue.

Variable strtod : string -> float * nat * Z.
Variable ERANGE : Z.
Variables input_separator output_separator : option string.
Variables source target : string.
Hypothesis source_known : Get_type source <> UNKNOWN.
Hypothesis target_known : Get_type target <> UNKNOWN.

Lemma Fixed_fails_as_Enhanced (text : string) (e : ProcessError) :
  text_fails Enhanced.Convert_temperature strtod ERANGE source target text e ->
  text_fails Fixed.Convert_temperature strtod ERANGE source target text e.
Proof.
  intros [H | (v & e' & HP & HC & ->)]; [left; exact H | right].
  exists v, e'. repeat split; try assumption.
  now rewrite Convert_temperature_same_on_known_target.
Qed.

Lemma Fixed_main_args_prefix (good : list string) (rs : list float)
  (bad : string) (rest : list string) (e : ProcessError) (out : string) :
  Forall2 (text_converts Fixed.Convert_temperature strtod ERANGE source target)
          good rs ->
  text_fails Fixed.Convert_temperature strtod ERANGE source target bad e ->
  Fixed_main_args strtod ERANGE source target (good ++ bad :: rest)%list out
  = (out ++ result_lines rs, Stop e).
Proof.
  intros H Hbad. revert out.
  induction H as [|arg r args rs (v & HP & HC) _ IH]; intros out.
  - cbn [app Fixed_main_args]. unfold and_then at 1. unfold Fixed_main_value.
    unfold and_then.
    destruct Hbad as [HP | (v & e' & HP & HC & ->)]; rewrite HP; cbn.
    + now rewrite append_empty_r.
    + rewrite HC. cbn. now rewrite append_empty_r.
  - cbn [app Fixed_main_args]. unfold and_then at 1. unfold Fixed_main_value.
    unfold and_then at 1. rewrite HP. cbn. rewrite HC. cbn.
    rewrite IH. unfold result_lines. cbn [map String.concat].
    destruct (map (fun r0 => Print_result r0 ++ String newline EmptyString) rs) eqn:E.
    + cbn. now rewrite !append_empty_r.
    + rewrite append_assoc. reflexivity.
Qed.

Lemma Enhanced_main_args_prefix (good : list string) (rs : list float)
  (bad : string) (rest : list string) (e : ProcessError)
  (first : bool) (out : string) :
  Forall2 (text_converts Enhanced.Convert_temperature strtod ERANGE source target)
          good rs ->
  text_fails Enhanced.Convert_temperature strtod ERANGE source target bad e ->
  Enhanced_main_args strtod ERANGE input_separator output_separator false
    source target (good ++ bad :: rest)%list first out
  = (out ++ joined_results output_separator first rs, Stop e).
Proof.
  intros H Hbad. revert first out.
  induction H as [|arg r args rs (v & HP & HC) _ IH]; intros first out.
  - cbn [app Enhanced_main_args]. unfold and_then.
    destruct Hbad as [HP | (v & e' & HP & HC & ->)]; rewrite HP; cbn.
    + now rewrite append_empty_r.
    + rewrite HC. cbn. now rewrite append_empty_r.
  - cbn [app Enhanced_main_args]. unfold and_then at 1. rewrite HP. cbn.
    rewrite HC. cbn. unfold and_then at 1. rewrite write_separator_text.
    unfold and_then at 1. cbn [write]. rewrite IH.
    now rewrite joined_results_cons.
Qed.

(** X22. A value on the command line that [Parse] or the conversion
    rejects stops both programs where it stands: the results of the
    values before it are already on standard output, in gradus_fixed.c
    one per line, in gradus_enhanced.c outside array mode joined by the
    output separator with no end of line, and the values after it are not
    read. *)
Theorem main_stops_at_first_bad_value
  (good : list string) (rs : list float) (bad : string) (rest : list string)
  (e : ProcessError) (stdin out : string) :
  Forall2 (text_converts Enhanced.Convert_temperature strtod ERANGE source target)
          good rs ->
  text_fails Enhanced.Convert_temperature strtod ERANGE source target bad e ->
  Fixed_main strtod ERANGE (Some source) (Some target)
    (good ++ bad :: rest)%list stdin out
  = (out ++ result_lines rs, Stop e) /\
  Enhanced_main strtod ERANGE input_separator output_separator false
    (Some source) (Some target) (good ++ bad :: rest)%list stdin out
  = (out ++ String.concat (separator_text output_separator) (map Print_result rs),
     Stop e).
Proof.
  intros H Hbad.
  destruct (scales_pass_main_checks source target source_known target_known)
    as [Hs Ht].
  unfold Fixed_main, Enhanced_main. rewrite Hs, Ht. unfold stop_when.
  assert (N : exists a l, (good ++ bad :: rest)%list = a :: l)
    by (destruct good; cbn; eauto).
  destruct N as (a & l & N). rewrite N. rewrite <- N. split.
  - unfold and_then at 1 2. cbn [done]. apply Fixed_main_args_prefix.
    + clear - H target_known.
      induction H; constructor; auto using Fixed_converts_as_Enhanced.
    + now apply Fixed_fails_as_Enhanced.
  - unfold and_then at 1 2 3. cbn [done].
    rewrite (Enhanced_main_args_prefix good rs bad rest e true out H Hbad).
    unfold joined_results. destruct rs; reflexivity.
Qed.

End RejectedValue.

Lemma main_stops_at_first_bad_value_witness :
  Fixed_main strtod_integers 34%Z (Some "K") (Some "C")
    (["300"; "273"] ++ "-5" :: ["1"])%list EmptyString EmptyString
  = (EmptyString ++ result_lines [26.850000000000023%float; (-0.14999999999997726)%float],
     Stop (Conversion (NegativeAbsoluteTemperature "K" (-5)%float))) /\
  Enhanced_main strtod_integers 34%Z None (Some " ") false (Some "K") (Some "C")
    (["300"; "273"] ++ "-5" :: ["1"])%list EmptyString EmptyString
  = (EmptyString
       ++ String.concat (separator_text (Some " "))
            (map Print_result [26.850000000000023%float; (-0.14999999999997726)%float]),
     Stop (Conversion (NegativeAbsoluteTemperature "K" (-5)%float))).
Proof.
  apply (main_stops_at_first_bad_value strtod_integers 34%Z None (Some " ")
           "K" "C").
  - vm_compute. discriminate.
  - vm_compute. discriminate.
  - repeat (apply Forall2_cons; [eexists; split; reflexivity|]).
    apply Forall2_nil.
  - right. exists (-5)%float, (NegativeAbsoluteTemperature "K" (-5)%float).
    repeat split; reflexivity.
Defined.
